(** * evalap: the [llm_structured_output] metric

    A shallow embedding of [evalap/api/metrics/llm_structured_output.py]
    and the properties its specification states about it.

    Conventions of the embedding.
    - A Python object is a [value]: the JSON shapes ([None], [bool], [int],
      [float], [str], [list], [dict] with string keys) and [VOther] for an
      object of any other type, [bytes] and [bytearray] excepted (they are
      the only other objects [json.loads] reads).  A [dict] is the list of
      its items in insertion order.
    - Python's unbounded [int] is [Z].  A [float] is the rational it
      denotes ([Q]); the arithmetic of the module (one division, one
      subtraction, a sum and a mean) is exact rational arithmetic, and
      equality of scores is [Qeq].
    - A [str] is a [string]: a sequence of characters with code points
      below 256.
    - A call that can raise returns a [result]; [try]/[except] is a match
      on the exception raised.
    - The library functions the module calls but does not define
      ([json.loads] on a string, [DeepDiff]) are parameters of the
      definitions.  [re.search] is embedded for the two patterns the module
      uses, and [json.dumps] is kept symbolic. *)

From Stdlib Require Import ZArith QArith Qminmax List String Ascii Bool Lia Lqa.
From Stdlib Require Import Permutation.
Import ListNotations.

Local Open Scope string_scope.
Local Open Scope Z_scope.

(** ** Python objects *)

#[local] Set Warnings "-register-all".

Inductive value : Type :=
| VNone
| VBool (b : bool)
| VInt (n : Z)
| VFloat (x : Q)
| VStr (s : string)
| VList (items : list value)
| VDict (items : list (string * value))
| VOther (type_name : string).

Definition is_None (v : value) : bool :=
  match v with VNone => true | _ => false end.

Definition is_dict (v : value) : bool :=
  match v with VDict _ => true | _ => false end.

(** ** Exceptions *)

Inductive exn : Type :=
| JSONDecodeError (msg : string)
| TypeError
| ZeroDivisionError
| ValueError
| RecursionError.

Inductive result (A : Type) : Type :=
| Ok (a : A)
| Raise (e : exn).

Arguments Ok {A} a.
Arguments Raise {A} e.

Definition bind {A B : Type} (r : result A) (k : A -> result B) : result B :=
  match r with
  | Ok a => k a
  | Raise e => Raise e
  end.

Notation "x <- r ;; k" := (bind r (fun x => k))
  (at level 61, r at next level, right associativity).

(** ** Dictionaries (insertion-ordered association lists) *)

Section Dict.
Context {A : Type}.

Definition keys (d : list (string * A)) : list string := map fst d.

Definition values (d : list (string * A)) : list A := map snd d.

Fixpoint lookup (k : string) (d : list (string * A)) : option A :=
  match d with
  | [] => None
  | (k', v) :: rest => if String.eqb k k' then Some v else lookup k rest
  end.

(** [d[k] = v]: the value is replaced in place when the key exists, the
    item is appended otherwise. *)
Fixpoint dict_set (d : list (string * A)) (k : string) (v : A)
  : list (string * A) :=
  match d with
  | [] => [(k, v)]
  | (k', v') :: rest =>
      if String.eqb k k' then (k', v) :: rest
      else (k', v') :: dict_set rest k v
  end.
End Dict.

(** [d.get(key)] on a dict of objects: [None] when the key is missing. *)
Definition dict_get (d : list (string * value)) (key : string) : value :=
  match lookup key d with
  | Some v => v
  | None => VNone
  end.

(** [set(a) | set(b)] followed by iteration: each key once.  Python leaves
    the iteration order of a set unspecified; no statement below depends on
    the order chosen here. *)
Definition key_union (a b : list string) : list string :=
  nodup string_dec (a ++ b).

(** ** Builtins *)

(** [sum(xs)] over integers: left to right from [0]. *)
Definition py_sum (xs : list Z) : Z := fold_left Z.add xs 0.

(** [sum(xs)] over floats, as the sum of the rationals they denote.  It is
    exact, hence the same in whichever order [xs] lists the terms; the
    floating-point sum of the program can differ in its last digits from
    one order to another. *)
Definition py_fsum (xs : list Q) : Q := fold_left Qplus xs (0 : Q).

Definition len {A : Type} (xs : list A) : Z := Z.of_nat (List.length xs).

(** [max(a, b)]: the second argument only when it is strictly greater. *)
Definition py_max (a b : Q) : Q :=
  if Qle_bool b a then a else b.

(** [a / b] on two integers, the divisor known to be non-zero. *)
Definition int_truediv (a b : Z) : Q := (inject_Z a / inject_Z b)%Q.

(** [x / n] with a float dividend and an integer divisor. *)
Definition float_truediv (x : Q) (n : Z) : result Q :=
  if n =? 0 then Raise ZeroDivisionError else Ok (x / inject_Z n)%Q.

(** ** [count_total_values] *)

Fixpoint count_total_values (data : value) : Z :=
  match data with
  | VNone => 1
  | VStr _ | VInt _ | VFloat _ | VBool _ => 1
  | VList items => py_sum (map count_total_values items)
  | VDict d => py_sum (map (fun item => count_total_values (snd item)) d)
  | VOther _ => 1
  end.

(** ** The report of [DeepDiff]

    A [DeepDiff] object is a mapping from report category to evidence.  A
    category that is absent from the mapping is [None] here.  At the default
    verbosity [values_changed], [type_changes], [iterable_item_removed] and
    [iterable_item_added] map a path to evidence, and
    [dictionary_item_removed] and [dictionary_item_added] are sets of paths.
    [other_categories] lists the keys of any further category. *)

Record DiffResult : Type := mkDiff {
  values_changed : option (list (string * value));
  type_changes : option (list (string * value));
  dictionary_item_removed : option (list string);
  dictionary_item_added : option (list string);
  iterable_item_removed : option (list (string * value));
  iterable_item_added : option (list (string * value));
  other_categories : list string
}.

Definition is_Some {A : Type} (o : option A) : bool :=
  match o with Some _ => true | None => false end.

(** Truth value of the mapping: false exactly when it has no key. *)
Definition diff_truthy (diff : DiffResult) : bool :=
  is_Some (values_changed diff) || is_Some (type_changes diff)
  || is_Some (dictionary_item_removed diff)
  || is_Some (dictionary_item_added diff)
  || is_Some (iterable_item_removed diff)
  || is_Some (iterable_item_added diff)
  || negb (match other_categories diff with [] => true | _ => false end).

(** [diff.get(category, {})]. *)
Definition get_or_empty {A : Type} (category : option (list A)) : list A :=
  match category with
  | Some entries => entries
  | None => []
  end.

(** ** [calculate_similarity_score] *)

Definition calculate_similarity_score
    (expected_data extracted_data : value) (diff : DiffResult) : Q :=
  if is_None expected_data && is_None extracted_data then 1%Q
  else if is_None expected_data || is_None extracted_data then 0%Q
  else if negb (diff_truthy diff) then 1%Q
  else
    let total_expected_values := count_total_values expected_data in
    let diff_count := 0 in
    let diff_count := diff_count + len (get_or_empty (values_changed diff)) in
    let diff_count := diff_count + len (get_or_empty (type_changes diff)) in
    let diff_count :=
      match dictionary_item_removed diff with
      | Some paths => fold_left (fun count _ => count + 1) paths diff_count
      | None => diff_count
      end in
    let diff_count :=
      match iterable_item_removed diff with
      | Some items =>
          fold_left (fun count removed_item =>
                       count + count_total_values removed_item)
                    (values items) diff_count
      | None => diff_count
      end in
    let diff_count :=
      match dictionary_item_added diff with
      | Some paths => fold_left (fun count _ => count + 1) paths diff_count
      | None => diff_count
      end in
    let diff_count :=
      match iterable_item_added diff with
      | Some items =>
          fold_left (fun count added_item =>
                       count + count_total_values added_item)
                    (values items) diff_count
      | None => diff_count
      end in
    if total_expected_values =? 0 then
      (if diff_count =? 0 then 1%Q else 0%Q)
    else
      py_max 0%Q (1 - int_truediv diff_count total_expected_values)%Q.

(** ** [calculate_field_level_scores] *)

Section FieldScores.
(** [DeepDiff(t1, t2, ignore_order=...)]. *)
Variable DeepDiff : value -> value -> bool -> DiffResult.

(** One iteration of the loop over [all_keys]. *)
Definition score_key (expected_data extracted_data : list (string * value))
    (key_scores : list (string * Q)) (key : string) : list (string * Q) :=
  let expected_value := dict_get expected_data key in
  let extracted_value := dict_get extracted_data key in
  let key_diff := DeepDiff expected_value extracted_value true in
  let key_score :=
    calculate_similarity_score expected_value extracted_value key_diff in
  dict_set key_scores key key_score.

Definition calculate_field_level_scores
    (expected_data extracted_data : value) : list (string * Q) :=
  match expected_data, extracted_data with
  | VDict expected, VDict extracted =>
      let key_scores := [] in
      let all_keys := key_union (keys expected) (keys extracted) in
      fold_left (score_key expected extracted) all_keys key_scores
  | _, _ => []
  end.
End FieldScores.

(** ** [re.search] for the two patterns of the module

    Both patterns are compiled with [re.DOTALL], so [.] matches every
    character.  A character is white space ([\s]) when [str.isspace] holds
    of it; among the code points below 256 these are 9-13, 28-32, 133 and
    160. *)

Definition is_space (c : ascii) : bool :=
  let n := nat_of_ascii c in
  ((9 <=? n) && (n <=? 13) || (28 <=? n) && (n <=? 32)
   || (n =? 133) || (n =? 160))%nat.

Fixpoint skip_spaces (s : string) : string :=
  match s with
  | String c rest => if is_space c then skip_spaces rest else s
  | EmptyString => s
  end.

(** [s] without its prefix [p], when it starts with [p]. *)
Fixpoint strip_prefix (p s : string) : option string :=
  match p, s with
  | EmptyString, _ => Some s
  | String a p', String b s' =>
      if Ascii.eqb a b then strip_prefix p' s' else None
  | String _ _, EmptyString => None
  end.

Definition open_brace : ascii := "{"%char.
Definition close_brace : ascii := "}"%char.
Definition fence : string := "```".

(** The suffix of [s] that starts at its first opening brace. *)
Fixpoint from_open_brace (s : string) : option string :=
  match s with
  | EmptyString => None
  | String c rest =>
      if Ascii.eqb c open_brace then Some s else from_open_brace rest
  end.

(** The longest prefix of [s] that ends with a closing brace: what the
    greedy [.*\}] consumes. *)
Fixpoint through_last_close (s : string) : option string :=
  match s with
  | EmptyString => None
  | String c rest =>
      match through_last_close rest with
      | Some body => Some (String c body)
      | None =>
          if Ascii.eqb c close_brace then Some (String c EmptyString)
          else None
      end
  end.

(** [re.search(r'\{.*\}', s, re.DOTALL)]: the matched text.  The leftmost
    opening brace is the only possible start: when no closing brace follows
    it, none follows a later one. *)
Definition search_braces (s : string) : option string :=
  match from_open_brace s with
  | Some (String c rest) =>
      match through_last_close rest with
      | Some body => Some (String c body)
      | None => None
      end
  | _ => None
  end.

(** The shortest prefix of [s] that ends with a closing brace followed by
    white space and a fence: what the lazy [.*?\}] consumes before
    [\s*```].  A fence does not start with white space, so only the whole
    run of white space can precede it. *)
Fixpoint through_closing_fence (s : string) : option string :=
  match s with
  | EmptyString => None
  | String c rest =>
      if Ascii.eqb c close_brace
         && is_Some (strip_prefix fence (skip_spaces rest))
      then Some (String c EmptyString)
      else match through_closing_fence rest with
           | Some body => Some (String c body)
           | None => None
           end
  end.

(** [\s*(\{.*?\})\s*```] at the start of [s]: group 1.  An opening brace is
    not white space, so only the whole run of white space can precede
    it. *)
Definition match_payload (s : string) : option string :=
  match skip_spaces s with
  | String c rest =>
      if Ascii.eqb c open_brace then
        match through_closing_fence rest with
        | Some body => Some (String c body)
        | None => None
        end
      else None
  | EmptyString => None
  end.

(** The whole pattern at the start of [s]: the optional [json] tag is tried
    first, and the match without it is tried when that fails. *)
Definition match_code_block (s : string) : option string :=
  match strip_prefix fence s with
  | None => None
  | Some after_fence =>
      let tagged :=
        match strip_prefix "json" after_fence with
        | Some after_tag => match_payload after_tag
        | None => None
        end in
      match tagged with
      | Some payload => Some payload
      | None => match_payload after_fence
      end
  end.

(** [re.search(r'```(?:json)?\s*(\{.*?\})\s*```', s, re.DOTALL)]: group 1
    of the leftmost match. *)
Fixpoint search_code_block (s : string) : option string :=
  match match_code_block s with
  | Some payload => Some payload
  | None =>
      match s with
      | EmptyString => None
      | String _ rest => search_code_block rest
      end
  end.

(** ** [json.dumps]

    The text produced is kept symbolic: [Dumped obj indent] is the text of
    [json.dumps(obj, indent=indent)].  An object of a type json cannot
    encode makes the call raise [TypeError].  Every [VOther] counts as
    such an object; json encodes a tuple, so the properties that assume
    [serializable] say nothing of data that holds one. *)

Inductive json_text : Type :=
| Dumped (obj : value) (indent : option Z).

Fixpoint serializable (v : value) : bool :=
  match v with
  | VOther _ => false
  | VList items => forallb serializable items
  | VDict d => forallb (fun item => serializable (snd item)) d
  | _ => true
  end.

Definition json_dumps (obj : value) (indent : option Z) : result json_text :=
  if serializable obj then Ok (Dumped obj indent) else Raise TypeError.

(** [obj[:n]]. *)
Definition slice_to (n : nat) (obj : value) : result value :=
  match obj with
  | VStr s => Ok (VStr (substring 0 n s))
  | VList items => Ok (VList (firstn n items))
  | _ => Raise TypeError
  end.

(** ** [parse_json_from_response] and [llm_structured_output_metric] *)

(** What [json.loads] makes of a string: the decoded object, the message
    of the [JSONDecodeError] it raises, or one of the two other exceptions
    it raises on a string: [ValueError] on an integer literal with more
    digits than [int] converts ([TooLong]) and [RecursionError] on
    containers nested beyond the recursion limit ([TooDeep]). *)
Inductive decoded : Type :=
| Decoded (obj : value)
| Undecodable (msg : string)
| TooLong
| TooDeep.

Section Metric.
Variable loads : string -> decoded.
Variable DeepDiff : value -> value -> bool -> DiffResult.

(** [json.loads(obj)]: a string is read, and an object of another type
    (other than [bytes] and [bytearray], which are not objects of this
    embedding) raises [TypeError]. *)
Definition json_loads (obj : value) : result value :=
  match obj with
  | VStr s =>
      match loads s with
      | Decoded v => Ok v
      | Undecodable msg => Raise (JSONDecodeError msg)
      | TooLong => Raise ValueError
      | TooDeep => Raise RecursionError
      end
  | _ => Raise TypeError
  end.

(** [try: return json.loads(text) except json.JSONDecodeError: pass],
    followed by [otherwise]. *)
Definition try_loads (text : value) (otherwise : result value)
  : result value :=
  match json_loads text with
  | Raise (JSONDecodeError _) => otherwise
  | returned_or_raised => returned_or_raised
  end.

(** [re.search(pattern, response)] needs a string. *)
Definition re_search (pattern : string -> option string) (response : value)
  : result (option string) :=
  match response with
  | VStr s => Ok (pattern s)
  | _ => Raise TypeError
  end.

Definition parse_json_from_response (response : value) : result value :=
  if is_dict response then Ok response
  else
    try_loads response
      (json_match <- re_search search_braces response ;;
       let after_braces :=
         code_block_match <- re_search search_code_block response ;;
         match code_block_match with
         | Some group1 => try_loads (VStr group1) (Ok VNone)
         | None => Ok VNone
         end in
       match json_match with
       | Some group0 => try_loads (VStr group0) after_braces
       | None => after_braces
       end).

Definition score_values (field_scores : list (string * Q)) : value :=
  VDict (map (fun item => (fst item, VFloat (snd item))) field_scores).

Definition llm_structured_output_metric (output output_true : value)
  : result (Q * json_text * value) :=
  match parse_json_from_response output_true with
  | Raise (JSONDecodeError msg) =>
      raw <- slice_to 500 output_true ;;
      text <- json_dumps
                (VDict [("error",
                         VStr ("Failed to parse ground truth JSON: " ++ msg));
                        ("output_true", raw)]) None ;;
      Ok (0%Q, text, output)
  | Raise e => Raise e
  | Ok expected_data =>
      extracted_data <- parse_json_from_response output ;;
      if is_None extracted_data then
        let observation :=
          VDict [("score", VFloat 0);
                 ("error",
                  VStr "Failed to extract valid JSON from LLM response");
                 ("expected_data", expected_data)] in
        text <- json_dumps observation (Some 2) ;;
        Ok (0%Q, text, output)
      else
        let diff := DeepDiff expected_data extracted_data false in
        let field_scores :=
          calculate_field_level_scores DeepDiff expected_data extracted_data in
        overall_score <-
          float_truediv (py_fsum (values field_scores)) (len field_scores) ;;
        let observation :=
          VDict [("score", VFloat overall_score);
                 ("extracted_data", extracted_data);
                 ("expected_data", expected_data);
                 ("field_scores", score_values field_scores)] in
        text <- json_dumps observation (Some 2) ;;
        Ok (overall_score, text, output)
  end.
End Metric.

(** ** The scorer as the specification words it

    Section 4.4 of the specification: the penalty count is a sum over the
    six report categories, and the score is the clamped complement of the
    penalty relative to the number of expected values. *)

Module Spec.

(** Number of entries of a category; an absent category has none. *)
Definition entries {A : Type} (category : option (list A)) : Z :=
  match category with
  | Some paths => Z.of_nat (List.length paths)
  | None => 0
  end.

(** Content of the elements of a category, in value units. *)
Definition content (category : option (list (string * value))) : Z :=
  match category with
  | Some items =>
      fold_right (fun item total => count_total_values (snd item) + total)
                 0 items
  | None => 0
  end.

Definition diff_count (diff : DiffResult) : Z :=
  entries (values_changed diff)
  + entries (type_changes diff)
  + (entries (dictionary_item_removed diff)
     + entries (dictionary_item_added diff))
  + content (iterable_item_removed diff)
  + content (iterable_item_added diff).

Definition diff_is_empty (diff : DiffResult) : bool :=
  match values_changed diff, type_changes diff,
        dictionary_item_removed diff, dictionary_item_added diff,
        iterable_item_removed diff, iterable_item_added diff,
        other_categories diff with
  | None, None, None, None, None, None, [] => true
  | _, _, _, _, _, _, _ => false
  end.

Definition similarity_score (expected extracted : value) (diff : DiffResult)
  : Q :=
  match expected, extracted with
  | VNone, VNone => 1%Q
  | VNone, _ => 0%Q
  | _, VNone => 0%Q
  | _, _ =>
      if diff_is_empty diff then 1%Q
      else
        let denominator := count_total_values expected in
        if denominator =? 0 then
          (if diff_count diff =? 0 then 1%Q else 0%Q)
        else Qmax 0 (1 - (diff_count diff # Z.to_pos denominator))
  end.

(** Arithmetic mean of the scores of a non-empty field score map. *)
Definition mean (scores : list Q) : Q :=
  (fold_right Qplus 0 scores / inject_Z (Z.of_nat (List.length scores)))%Q.

End Spec.

(** ** Stand-ins for the library parameters

    The examples below need one JSON reader and one differ to run on.
    [Ref.loads] reads the fragment of JSON the scenarios of the
    specification use: objects, arrays, strings without escapes, integers,
    [true], [false] and [null].  Text outside the fragment is reported as
    undecodable, and no text makes it raise another exception.
    [Ref.DeepDiff] compares two objects at the root only: no
    report when they are equal, one [values_changed] entry when they are
    two different objects of one type, one [type_changes] entry
    otherwise. *)

Module Ref.

Definition double_quote : ascii := ascii_of_nat 34.
Definition backslash : ascii := ascii_of_nat 92.

Definition is_json_space (c : ascii) : bool :=
  let n := nat_of_ascii c in
  ((n =? 32) || (n =? 9) || (n =? 10) || (n =? 13))%nat.

Fixpoint skip_json_spaces (s : string) : string :=
  match s with
  | String c rest => if is_json_space c then skip_json_spaces rest else s
  | EmptyString => s
  end.

Definition digit (c : ascii) : option Z :=
  let n := nat_of_ascii c in
  if ((48 <=? n) && (n <=? 57))%nat then Some (Z.of_nat (n - 48)) else None.

Fixpoint read_digits (s : string) (acc : Z) : Z * string :=
  match s with
  | String c rest =>
      match digit c with
      | Some d => read_digits rest (10 * acc + d)
      | None => (acc, s)
      end
  | EmptyString => (acc, s)
  end.

(** An integer literal without sign: [0] or a digit sequence that does
    not start with [0]. *)
Definition read_natural (s : string) : option (Z * string) :=
  match s with
  | String c rest =>
      match digit c with
      | Some 0 => Some (0, rest)
      | Some d => Some (read_digits rest d)
      | None => None
      end
  | EmptyString => None
  end.

Definition starts_number_tail (s : string) : bool :=
  match s with
  | String c _ =>
      Ascii.eqb c "."%char || Ascii.eqb c "e"%char || Ascii.eqb c "E"%char
  | EmptyString => false
  end.

Definition read_integer (s : string) : option (value * string) :=
  let signed :=
    match s with
    | String c rest =>
        if Ascii.eqb c "-"%char
        then option_map (fun r => (- fst r, snd r)) (read_natural rest)
        else read_natural s
    | EmptyString => None
    end in
  match signed with
  | Some (n, rest) =>
      if starts_number_tail rest then None else Some (VInt n, rest)
  | None => None
  end.

(** The characters up to the closing quote of a string literal. *)
Fixpoint read_string_body (s : string) : option (string * string) :=
  match s with
  | EmptyString => None
  | String c rest =>
      if Ascii.eqb c double_quote then Some (EmptyString, rest)
      else if Ascii.eqb c backslash || (nat_of_ascii c <? 32)%nat then None
      else match read_string_body rest with
           | Some (body, rest') => Some (String c body, rest')
           | None => None
           end
  end.

Definition read_literal (word : string) (v : value) (s : string)
  : option (value * string) :=
  option_map (fun rest => (v, rest)) (strip_prefix word s).

Definition expect (c : ascii) (s : string) : option string :=
  match skip_json_spaces s with
  | String c' rest => if Ascii.eqb c c' then Some rest else None
  | EmptyString => None
  end.

Fixpoint read_value (fuel : nat) (s : string) : option (value * string) :=
  match fuel with
  | O => None
  | S fuel' =>
      match skip_json_spaces s with
      | EmptyString => None
      | String c rest as s' =>
          if Ascii.eqb c open_brace then
            match expect close_brace rest with
            | Some rest' => Some (VDict [], rest')
            | None => read_members fuel' rest []
            end
          else if Ascii.eqb c "["%char then
            match expect "]"%char rest with
            | Some rest' => Some (VList [], rest')
            | None => read_elements fuel' rest []
            end
          else if Ascii.eqb c double_quote then
            option_map (fun r => (VStr (fst r), snd r)) (read_string_body rest)
          else if Ascii.eqb c "n"%char then read_literal "null" VNone s'
          else if Ascii.eqb c "t"%char then read_literal "true" (VBool true) s'
          else if Ascii.eqb c "f"%char
          then read_literal "false" (VBool false) s'
          else read_integer s'
      end
  end

(** The elements of an array after [seen], up to the closing bracket. *)
with read_elements (fuel : nat) (s : string) (seen : list value)
  : option (value * string) :=
  match fuel with
  | O => None
  | S fuel' =>
      match read_value fuel' s with
      | None => None
      | Some (v, rest) =>
          match expect ","%char rest with
          | Some rest' => read_elements fuel' rest' (seen ++ [v])
          | None =>
              option_map (fun rest' => (VList (seen ++ [v]), rest'))
                         (expect "]"%char rest)
          end
      end
  end

(** The members of an object after [seen], up to the closing brace.  A
    repeated key keeps its place and takes the later value. *)
with read_members (fuel : nat) (s : string) (seen : list (string * value))
  : option (value * string) :=
  match fuel with
  | O => None
  | S fuel' =>
      match expect double_quote s with
      | None => None
      | Some after_quote =>
          match read_string_body after_quote with
          | None => None
          | Some (key, after_key) =>
              match expect ":"%char after_key with
              | None => None
              | Some after_colon =>
                  match read_value fuel' after_colon with
                  | None => None
                  | Some (v, rest) =>
                      let seen' := dict_set seen key v in
                      match expect ","%char rest with
                      | Some rest' => read_members fuel' rest' seen'
                      | None =>
                          option_map (fun rest' => (VDict seen', rest'))
                                     (expect close_brace rest)
                      end
                  end
              end
          end
      end
  end.

Definition loads (s : string) : decoded :=
  match read_value (S (String.length s)) s with
  | Some (v, rest) =>
      match skip_json_spaces rest with
      | EmptyString => Decoded v
      | String _ _ => Undecodable "Extra data"
      end
  | None => Undecodable "Expecting value"
  end.

Fixpoint value_eqb (a b : value) : bool :=
  match a, b with
  | VNone, VNone => true
  | VBool x, VBool y => Bool.eqb x y
  | VInt x, VInt y => x =? y
  | VFloat x, VFloat y => Qeq_bool x y
  | VStr x, VStr y => String.eqb x y
  | VList xs, VList ys =>
      (fix all2 (xs ys : list value) : bool :=
         match xs, ys with
         | [], [] => true
         | x :: xs', y :: ys' => value_eqb x y && all2 xs' ys'
         | _, _ => false
         end) xs ys
  | VDict xs, VDict ys =>
      (fix all2 (xs ys : list (string * value)) : bool :=
         match xs, ys with
         | [], [] => true
         | (k, x) :: xs', (k', y) :: ys' =>
             String.eqb k k' && value_eqb x y && all2 xs' ys'
         | _, _ => false
         end) xs ys
  | VOther x, VOther y => String.eqb x y
  | _, _ => false
  end.

Definition same_type (a b : value) : bool :=
  match a, b with
  | VNone, VNone | VBool _, VBool _ | VInt _, VInt _ | VFloat _, VFloat _
  | VStr _, VStr _ | VList _, VList _ | VDict _, VDict _ => true
  | VOther x, VOther y => String.eqb x y
  | _, _ => false
  end.

Definition no_diff : DiffResult :=
  mkDiff None None None None None None [].

Definition DeepDiff (t1 t2 : value) (ignore_order : bool) : DiffResult :=
  if value_eqb t1 t2 then no_diff
  else
    let evidence := VDict [("new_value", t2); ("old_value", t1)] in
    if same_type t1 t2
    then mkDiff (Some [("root", evidence)]) None None None None None []
    else mkDiff None (Some [("root", evidence)]) None None None None [].

End Ref.

(** ** Scenarios of the specification *)

Module Scenario.

Definition quoted (s : string) : string :=
  String Ref.double_quote (s ++ String Ref.double_quote EmptyString).

(** [{"name":"Alice","age":30}] and [{"name":"Alice","age":31}]. *)
Definition alice (age : string) : string :=
  "{" ++ quoted "name" ++ ":" ++ quoted "Alice" ++ ","
      ++ quoted "age" ++ ":" ++ age ++ "}".

Definition alice_data (age : Z) : value :=
  VDict [("name", VStr "Alice"); ("age", VInt age)].

(** [{"x":1}]. *)
Definition x1 : string := "{" ++ quoted "x" ++ ":1}".

Definition x1_data : value := VDict [("x", VInt 1)].

Definition not_json : string := "not json at all".

(** The answer of scenario D: the object in a fenced code block. *)
Definition fenced_x1 : string :=
  "here is the answer: ```json" ++ String (ascii_of_nat 10) x1
    ++ String (ascii_of_nat 10) "```".

End Scenario.

(** The observation of the extraction-failure path, before it is
    serialised. *)
Definition extraction_failure (expected_data : value) : value :=
  VDict [("score", VFloat 0);
         ("error", VStr "Failed to extract valid JSON from LLM response");
         ("expected_data", expected_data)].

(** The observation of the scoring path, before it is serialised:
    [field_scores] holds the items of the field score map. *)
Definition scored_observation (score : Q) (extracted_data expected_data : value)
    (field_scores : list (string * value)) : value :=
  VDict [("score", VFloat score);
         ("extracted_data", extracted_data);
         ("expected_data", expected_data);
         ("field_scores", VDict field_scores)].

(** The items of a score map as JSON numbers. *)
Definition score_items (scores : list (string * Q)) : list (string * value) :=
  map (fun item => (fst item, VFloat (snd item))) scores.

(** [json.loads] rejects the text. *)
Definition undecodable (loads : string -> decoded) (s : string) : Prop :=
  exists msg, loads s = Undecodable msg.

(** An attempt on the text a pattern finds fails: the pattern finds
    nothing, or what it finds is rejected. *)
Definition attempt_fails (loads : string -> decoded)
    (found : option string) : Prop :=
  match found with
  | Some text => undecodable loads text
  | None => True
  end.

(** The score the loop of [calculate_field_level_scores] gives a key. *)
Definition field_score (DeepDiff : value -> value -> bool -> DiffResult)
    (expected extracted : list (string * value)) (key : string) : Q :=
  calculate_similarity_score
    (dict_get expected key) (dict_get extracted key)
    (DeepDiff (dict_get expected key) (dict_get extracted key) true).

(** The character [c] occurs in [s]. *)
Fixpoint has_char (c : ascii) (s : string) : bool :=
  match s with
  | EmptyString => false
  | String c' rest => Ascii.eqb c c' || has_char c rest
  end.

(** [s] is a run of white space. *)
Fixpoint all_spaces (s : string) : bool :=
  match s with
  | EmptyString => true
  | String c rest => is_space c && all_spaces rest
  end.

(** [json.loads] raises [e] on the text, and [e] is not a
    [JSONDecodeError]. *)
Definition loads_raises (loads : string -> decoded)
    (s : string) (e : exn) : Prop :=
  (loads s = TooLong /\ e = ValueError)
  \/ (loads s = TooDeep /\ e = RecursionError).

(** The code-block pattern matches at the start of [t] with [p] as group
    1: a fence, optionally the tag [json], white space, the brace-delimited
    [p], white space and a fence. *)
Definition fenced_payload (t p : string) : Prop :=
  exists tag ws1 body ws2 post,
    t = (fence ++ tag ++ ws1 ++ p ++ ws2 ++ fence ++ post)%string
    /\ (tag = EmptyString \/ tag = "json"%string)
    /\ p = String open_brace (body ++ String close_brace EmptyString)
    /\ all_spaces ws1 = true /\ all_spaces ws2 = true.

(** The exceptions a string can make the function raise. *)
Definition escaping (e : exn) : Prop := e = ValueError \/ e = RecursionError.

(** A score of the closed unit interval. *)
Definition unit_score (score : Q) : Prop := (0 <= score /\ score <= 1)%Q.

(** * Properties *)

(** ** Induction over nested objects *)

Section ValueInduction.
Variable P : value -> Prop.
Hypothesis P_None : P VNone.
Hypothesis P_Bool : forall b, P (VBool b).
Hypothesis P_Int : forall n, P (VInt n).
Hypothesis P_Float : forall x, P (VFloat x).
Hypothesis P_Str : forall s, P (VStr s).
Hypothesis P_Other : forall t, P (VOther t).
Hypothesis P_List : forall items, Forall P items -> P (VList items).
Hypothesis P_Dict :
  forall d, Forall (fun item => P (snd item)) d -> P (VDict d).

Lemma value_nested_ind : forall v, P v.
Proof.
  fix IH 1. intros [ | b | n | x | s | items | d | t ].
  - exact P_None.
  - apply P_Bool.
  - apply P_Int.
  - apply P_Float.
  - apply P_Str.
  - apply P_List. induction items as [ | v items IHitems ];
      constructor; [ apply IH | exact IHitems ].
  - apply P_Dict. induction d as [ | [k v] d IHd ];
      constructor; [ apply IH | exact IHd ].
  - apply P_Other.
Qed.
End ValueInduction.

(** ** Sums *)

Lemma fold_left_add_acc (xs : list Z) (a : Z) :
  fold_left Z.add xs a = a + fold_right Z.add 0 xs.
Proof.
  revert a. induction xs as [ | x xs IH ]; intros a; simpl.
  - lia.
  - rewrite IH. lia.
Qed.

Lemma py_sum_total (xs : list Z) : py_sum xs = fold_right Z.add 0 xs.
Proof. unfold py_sum. rewrite fold_left_add_acc. lia. Qed.

Lemma py_sum_cons (x : Z) (xs : list Z) : py_sum (x :: xs) = x + py_sum xs.
Proof. rewrite !py_sum_total. reflexivity. Qed.

Lemma py_sum_nonneg (xs : list Z) :
  Forall (fun x => 0 <= x) xs -> 0 <= py_sum xs.
Proof.
  induction 1 as [ | x xs Hx _ IH ].
  - reflexivity.
  - rewrite py_sum_cons. lia.
Qed.

Lemma count_total_values_nonneg (v : value) : 0 <= count_total_values v.
Proof.
  induction v using value_nested_ind; simpl; try lia.
  - apply py_sum_nonneg. apply Forall_map. assumption.
  - apply py_sum_nonneg. apply Forall_map. assumption.
Qed.

(** C4: [count_total_values] is 1 on every leaf ([None], booleans, numbers,
    strings, objects of any other type), the sum of the counts of the
    elements on a list and the sum of the counts of the values on a dict,
    whatever the keys; both sums are 0 on an empty container. *)
Theorem count_total_values_contract :
  (count_total_values VNone = 1
   /\ (forall b, count_total_values (VBool b) = 1)
   /\ (forall n, count_total_values (VInt n) = 1)
   /\ (forall x, count_total_values (VFloat x) = 1)
   /\ (forall s, count_total_values (VStr s) = 1)
   /\ (forall t, count_total_values (VOther t) = 1))
  /\ (count_total_values (VList []) = 0
      /\ (forall item items,
             count_total_values (VList (item :: items))
             = count_total_values item + count_total_values (VList items))
      /\ (forall items,
             count_total_values (VList items)
             = fold_right Z.add 0 (map count_total_values items)))
  /\ (count_total_values (VDict []) = 0
      /\ (forall key v d,
             count_total_values (VDict ((key, v) :: d))
             = count_total_values v + count_total_values (VDict d))
      /\ (forall d,
             count_total_values (VDict d)
             = fold_right Z.add 0 (map count_total_values (values d)))).
Proof.
  repeat split; try reflexivity; intros; simpl.
  - apply py_sum_cons.
  - apply py_sum_total.
  - apply py_sum_cons.
  - rewrite py_sum_total. unfold values. rewrite map_map. reflexivity.
Qed.

(** ** The penalty count *)

Lemma fold_left_count {A : Type} (paths : list A) (count : Z) :
  fold_left (fun count _ => count + 1) paths count = count + len paths.
Proof.
  unfold len. revert count.
  induction paths as [ | p paths IH ]; intros count.
  - simpl. lia.
  - cbn [fold_left List.length]. rewrite IH. lia.
Qed.

Lemma fold_left_content (items : list (string * value)) (count : Z) :
  fold_left (fun count item => count + count_total_values item)
            (values items) count
  = count + Spec.content (Some items).
Proof.
  revert count. induction items as [ | [path v] items IH ]; intros count.
  - simpl. lia.
  - cbn [values map fold_left snd]. fold (values items).
    rewrite IH. simpl. lia.
Qed.

Lemma entries_nonneg {A : Type} (category : option (list A)) :
  0 <= Spec.entries category.
Proof. destruct category; simpl; lia. Qed.

Lemma content_nonneg (category : option (list (string * value))) :
  0 <= Spec.content category.
Proof.
  destruct category as [ items | ]; simpl; [ | lia ].
  induction items as [ | [path v] items IH ]; simpl.
  - lia.
  - pose proof (count_total_values_nonneg v). lia.
Qed.

Lemma diff_count_nonneg (diff : DiffResult) : 0 <= Spec.diff_count diff.
Proof.
  unfold Spec.diff_count.
  pose proof (entries_nonneg (values_changed diff)).
  pose proof (entries_nonneg (type_changes diff)).
  pose proof (entries_nonneg (dictionary_item_removed diff)).
  pose proof (entries_nonneg (dictionary_item_added diff)).
  pose proof (content_nonneg (iterable_item_removed diff)).
  pose proof (content_nonneg (iterable_item_added diff)).
  lia.
Qed.

Lemma diff_truthy_not_empty (diff : DiffResult) :
  diff_truthy diff = negb (Spec.diff_is_empty diff).
Proof.
  destruct diff as [ [?|] [?|] [?|] [?|] [?|] [?|] [|? ?] ]; reflexivity.
Qed.

(** The score the code computes once the three early returns are passed:
    the running count of the code is the sum of the specification. *)
Lemma calculate_similarity_score_counted (expected extracted : value)
    (diff : DiffResult) :
  is_None expected = false -> is_None extracted = false ->
  diff_truthy diff = true ->
  calculate_similarity_score expected extracted diff
  = if count_total_values expected =? 0
    then (if Spec.diff_count diff =? 0 then 1%Q else 0%Q)
    else py_max 0%Q
           (1 - int_truediv (Spec.diff_count diff)
                            (count_total_values expected))%Q.
Proof.
  intros He Hx Hd. unfold calculate_similarity_score.
  rewrite He, Hx, Hd. cbn [andb orb negb].
  match goal with
  | |- (if _ then (if ?c =? 0 then _ else _) else _) = _ =>
      replace c with (Spec.diff_count diff)
  end; [ reflexivity | ].
  destruct diff as [ vc tc dr da ir ia oc ]. unfold Spec.diff_count.
  cbn [values_changed type_changes dictionary_item_removed
       dictionary_item_added iterable_item_removed iterable_item_added].
  destruct vc, tc, dr, da, ir, ia;
    rewrite ?fold_left_content, ?fold_left_count;
    unfold get_or_empty, len; cbn [Spec.entries Spec.content List.length];
    lia.
Qed.

(** ** Rational arithmetic of the score *)

Lemma py_max_Qmax (a b : Q) : (py_max a b == Qmax a b)%Q.
Proof.
  unfold py_max. destruct (Qle_bool b a) eqn:Hle.
  - apply Qle_bool_iff in Hle. symmetry. apply Q.max_l. exact Hle.
  - symmetry. apply Q.max_r. apply Qlt_le_weak. apply Qnot_le_lt.
    intros H. apply Qle_bool_iff in H. congruence.
Qed.

Lemma int_truediv_Qmake (a b : Z) :
  0 < b -> (int_truediv a b == a # Z.to_pos b)%Q.
Proof.
  intros Hb. unfold int_truediv. rewrite (Qmake_Qdiv a (Z.to_pos b)).
  rewrite Z2Pos.id by exact Hb. reflexivity.
Qed.

Lemma clamped_complement_unit (count total : Z) :
  0 <= count -> 0 < total ->
  unit_score (py_max 0 (1 - int_truediv count total)).
Proof.
  intros Hc Ht. unfold unit_score.
  assert (Hq : (0 <= int_truediv count total)%Q).
  { rewrite int_truediv_Qmake by exact Ht. unfold Qle. simpl. lia. }
  unfold py_max.
  destruct (Qle_bool (1 - int_truediv count total) 0) eqn:Hle.
  - split; [ apply Qle_refl | discriminate ].
  - split.
    + apply Qlt_le_weak. apply Qnot_le_lt.
      intros H. apply Qle_bool_iff in H. congruence.
    + lra.
Qed.

Lemma calculate_similarity_score_unit (expected extracted : value)
    (diff : DiffResult) :
  unit_score (calculate_similarity_score expected extracted diff).
Proof.
  assert (U0 : unit_score 0) by (split; discriminate).
  assert (U1 : unit_score 1) by (split; discriminate).
  destruct (is_None expected) eqn:He.
  { unfold calculate_similarity_score. rewrite He.
    destruct (is_None extracted); assumption. }
  destruct (is_None extracted) eqn:Hx.
  { unfold calculate_similarity_score. rewrite He, Hx. assumption. }
  destruct (diff_truthy diff) eqn:Hd.
  2:{ unfold calculate_similarity_score. rewrite He, Hx, Hd. assumption. }
  rewrite calculate_similarity_score_counted by assumption.
  destruct (count_total_values expected =? 0) eqn:Ht.
  - destruct (Spec.diff_count diff =? 0); assumption.
  - apply clamped_complement_unit.
    + apply diff_count_nonneg.
    + apply Z.eqb_neq in Ht.
      pose proof (count_total_values_nonneg expected). lia.
Qed.

(** C1: [calculate_similarity_score] computes the score of the
    specification: 1 when both objects are [None], 0 when exactly one is, 1
    when the diff is empty, and otherwise the complement, clamped at 0, of
    the penalty count over the number of expected values (1 or 0 when there
    is no expected value, as the penalty count is zero or not).  The penalty
    count is one per entry of [values_changed], [type_changes],
    [dictionary_item_removed] and [dictionary_item_added], and the number
    of values of each element of [iterable_item_removed] and
    [iterable_item_added]. *)
Theorem calculate_similarity_score_refines_spec
    (expected extracted : value) (diff : DiffResult) :
  (calculate_similarity_score expected extracted diff
   == Spec.similarity_score expected extracted diff)%Q.
Proof.
  destruct (is_None expected) eqn:He.
  { destruct expected; try discriminate.
    destruct extracted; reflexivity. }
  destruct (is_None extracted) eqn:Hx.
  { destruct extracted; try discriminate.
    destruct expected; try discriminate; reflexivity. }
  assert (Hspec :
    Spec.similarity_score expected extracted diff
    = if Spec.diff_is_empty diff then 1%Q
      else if count_total_values expected =? 0
           then (if Spec.diff_count diff =? 0 then 1%Q else 0%Q)
           else Qmax 0 (1 - (Spec.diff_count diff
                             # Z.to_pos (count_total_values expected)))).
  { destruct expected; try discriminate;
      destruct extracted; try discriminate; reflexivity. }
  rewrite Hspec. clear Hspec.
  destruct (diff_truthy diff) eqn:Hd.
  - rewrite calculate_similarity_score_counted by assumption.
    rewrite diff_truthy_not_empty in Hd.
    destruct (Spec.diff_is_empty diff); try discriminate.
    destruct (count_total_values expected =? 0) eqn:Ht; [ reflexivity | ].
    rewrite py_max_Qmax. rewrite int_truediv_Qmake; [ reflexivity | ].
    apply Z.eqb_neq in Ht.
    pose proof (count_total_values_nonneg expected). lia.
  - unfold calculate_similarity_score. rewrite He, Hx, Hd.
    rewrite diff_truthy_not_empty in Hd.
    destruct (Spec.diff_is_empty diff); try discriminate. reflexivity.
Qed.


(** ** Dictionaries *)

Section DictFacts.
Context {A : Type}.
Implicit Types (d : list (string * A)) (k : string) (v : A).

Lemma lookup_dict_set_same d k v : lookup k (dict_set d k v) = Some v.
Proof.
  induction d as [ | [k' v'] d IH ]; simpl.
  - rewrite String.eqb_refl. reflexivity.
  - destruct (String.eqb k k') eqn:E; simpl; rewrite E;
      [ reflexivity | exact IH ].
Qed.

Lemma lookup_dict_set_other d k k' v :
  k <> k' -> lookup k (dict_set d k' v) = lookup k d.
Proof.
  intros Hne. induction d as [ | [k0 v0] d IH ]; simpl.
  - apply String.eqb_neq in Hne. rewrite Hne. reflexivity.
  - destruct (String.eqb k' k0) eqn:E; simpl.
    + apply String.eqb_eq in E. subst k0.
      apply String.eqb_neq in Hne. rewrite Hne. reflexivity.
    + rewrite IH. reflexivity.
Qed.

Lemma keys_dict_set d k k' v :
  In k (keys (dict_set d k' v)) <-> k = k' \/ In k (keys d).
Proof.
  unfold keys. induction d as [ | [k0 v0] d IH ]; simpl.
  - intuition congruence.
  - destruct (String.eqb k' k0) eqn:E; simpl.
    + apply String.eqb_eq in E. subst k0. intuition congruence.
    + rewrite IH. intuition congruence.
Qed.

Lemma NoDup_keys_dict_set d k v :
  NoDup (keys d) -> NoDup (keys (dict_set d k v)).
Proof.
  induction d as [ | [k0 v0] d IH ]; simpl; intros Hd.
  - repeat constructor. intros [].
  - inversion Hd as [ | ? ? Hnotin Hrest ]; subst.
    destruct (String.eqb k k0) eqn:E; simpl.
    + constructor; assumption.
    + constructor; [ | apply IH; exact Hrest ].
      fold (keys (dict_set d k v)). rewrite keys_dict_set.
      intros [ -> | Hin ]; [ | exact (Hnotin Hin) ].
      rewrite String.eqb_refl in E. discriminate.
Qed.

Lemma Forall_dict_set (P : A -> Prop) d k v :
  Forall (fun item => P (snd item)) d -> P v ->
  Forall (fun item => P (snd item)) (dict_set d k v).
Proof.
  intros Hd Hv. induction Hd as [ | [k0 v0] d H0 Hd IH ]; simpl.
  - repeat constructor. exact Hv.
  - destruct (String.eqb k k0); constructor; assumption.
Qed.

Lemma lookup_missing d k : ~ In k (keys d) -> lookup k d = None.
Proof.
  unfold keys. induction d as [ | [k0 v0] d IH ]; simpl; intros Hk.
  - reflexivity.
  - destruct (String.eqb k k0) eqn:E.
    + apply String.eqb_eq in E. subst k0. tauto.
    + apply IH. tauto.
Qed.

(** The loop [for key in all_keys: key_scores[key] = f(key)]. *)
Variable f : string -> A.

Lemma loop_keys ks d k :
  In k (keys (fold_left (fun acc key => dict_set acc key (f key)) ks d))
  <-> In k (keys d) \/ In k ks.
Proof.
  revert d. induction ks as [ | k0 ks IH ]; intros d; simpl.
  - tauto.
  - rewrite IH, keys_dict_set. intuition congruence.
Qed.

Lemma loop_NoDup ks d :
  NoDup (keys d) ->
  NoDup (keys (fold_left (fun acc key => dict_set acc key (f key)) ks d)).
Proof.
  revert d. induction ks as [ | k0 ks IH ]; intros d Hd; simpl.
  - exact Hd.
  - apply IH. apply NoDup_keys_dict_set. exact Hd.
Qed.

Lemma loop_lookup_other ks d k :
  ~ In k ks ->
  lookup k (fold_left (fun acc key => dict_set acc key (f key)) ks d)
  = lookup k d.
Proof.
  revert d. induction ks as [ | k0 ks IH ]; intros d Hk; simpl.
  - reflexivity.
  - simpl in Hk. rewrite IH by tauto.
    apply lookup_dict_set_other. intros ->. tauto.
Qed.

Lemma loop_lookup ks d k :
  In k ks ->
  lookup k (fold_left (fun acc key => dict_set acc key (f key)) ks d)
  = Some (f k).
Proof.
  revert d. induction ks as [ | k0 ks IH ]; intros d Hk; simpl.
  - destruct Hk.
  - destruct (in_dec string_dec k ks) as [ Hin | Hout ].
    + apply IH. exact Hin.
    + destruct Hk as [ -> | Hin ]; [ | contradiction ].
      rewrite loop_lookup_other by exact Hout.
      apply lookup_dict_set_same.
Qed.

Lemma loop_Forall (P : A -> Prop) ks d :
  (forall key, P (f key)) ->
  Forall (fun item => P (snd item)) d ->
  Forall (fun item => P (snd item))
         (fold_left (fun acc key => dict_set acc key (f key)) ks d).
Proof.
  intros Hf. revert d. induction ks as [ | k0 ks IH ]; intros d Hd; simpl.
  - exact Hd.
  - apply IH. apply Forall_dict_set; [ exact Hd | apply Hf ].
Qed.
End DictFacts.

Lemma key_union_In (a b : list string) (k : string) :
  In k (key_union a b) <-> In k a \/ In k b.
Proof. unfold key_union. rewrite nodup_In. apply in_app_iff. Qed.

Lemma dict_get_missing (d : list (string * value)) (k : string) :
  ~ In k (keys d) -> dict_get d k = VNone.
Proof.
  intros Hk. unfold dict_get.
  rewrite lookup_missing by exact Hk. reflexivity.
Qed.

(** ** Field-level scores *)

Section FieldScoreFacts.
Variable DeepDiff : value -> value -> bool -> DiffResult.

Lemma calculate_field_level_scores_loop
    (expected extracted : list (string * value)) :
  calculate_field_level_scores DeepDiff (VDict expected) (VDict extracted)
  = fold_left
      (fun acc key =>
         dict_set acc key (field_score DeepDiff expected extracted key))
      (key_union (keys expected) (keys extracted)) [].
Proof. reflexivity. Qed.

Lemma calculate_field_level_scores_lookup
    (expected extracted : list (string * value)) (key : string) :
  In key (keys expected) \/ In key (keys extracted) ->
  lookup key (calculate_field_level_scores DeepDiff
                (VDict expected) (VDict extracted))
  = Some (field_score DeepDiff expected extracted key).
Proof.
  intros H. rewrite calculate_field_level_scores_loop.
  rewrite loop_lookup; [ reflexivity | ].
  apply key_union_In. exact H.
Qed.

Lemma field_scores_unit (expected extracted : value) :
  Forall (fun item => unit_score (snd item))
         (calculate_field_level_scores DeepDiff expected extracted).
Proof.
  destruct expected as [ | | | | | | e | ]; try constructor.
  destruct extracted as [ | | | | | | x | ]; try constructor.
  rewrite calculate_field_level_scores_loop.
  apply (loop_Forall (field_score DeepDiff e x) unit_score).
  - intros key. apply calculate_similarity_score_unit.
  - constructor.
Qed.
End FieldScoreFacts.

(** C9: [calculate_field_level_scores] returns the empty map when either
    side is not a dict.  On two dicts the keys of the result are the keys
    of either side, each once, and the score of a key is the similarity
    score of the two values found under it ([None] for a missing key) with
    the diff of these two values alone, taken with [ignore_order=True]. *)
Theorem calculate_field_level_scores_contract
    (DeepDiff : value -> value -> bool -> DiffResult) :
  (forall expected extracted,
      is_dict expected = false \/ is_dict extracted = false ->
      calculate_field_level_scores DeepDiff expected extracted = [])
  /\ (forall expected extracted,
         let scores :=
           calculate_field_level_scores DeepDiff
             (VDict expected) (VDict extracted) in
         (forall key, In key (keys scores)
                      <-> In key (keys expected) \/ In key (keys extracted))
         /\ NoDup (keys scores)
         /\ (forall key,
                In key (keys expected) \/ In key (keys extracted) ->
                lookup key scores
                = Some (calculate_similarity_score
                          (dict_get expected key) (dict_get extracted key)
                          (DeepDiff (dict_get expected key)
                                    (dict_get extracted key) true)))).
Proof.
  split.
  - intros expected extracted [ H | H ].
    + destruct expected; try reflexivity. discriminate.
    + destruct extracted; try discriminate; destruct expected; reflexivity.
  - intros expected extracted scores. subst scores.
    rewrite calculate_field_level_scores_loop. repeat split.
    + intros H. apply loop_keys in H. destruct H as [ [] | H ].
      apply key_union_In. exact H.
    + intros H. apply loop_keys. right. apply key_union_In. exact H.
    + apply loop_NoDup. constructor.
    + intros key H. apply calculate_field_level_scores_lookup. exact H.
Qed.

(** The scores of scenario B's two dicts, as a run of the contract. *)
Lemma calculate_field_level_scores_contract_witness :
  calculate_field_level_scores Ref.DeepDiff (VInt 1) (VDict []) = []
  /\ lookup "age"
       (calculate_field_level_scores Ref.DeepDiff
          (Scenario.alice_data 30) (Scenario.alice_data 31))
     = Some (calculate_similarity_score (VInt 30) (VInt 31)
               (Ref.DeepDiff (VInt 30) (VInt 31) true)).
Proof.
  split.
  - apply (proj1 (calculate_field_level_scores_contract Ref.DeepDiff)).
    left. reflexivity.
  - apply (proj2 (proj2 (proj2 (calculate_field_level_scores_contract
                                  Ref.DeepDiff)
                                 [("name", VStr "Alice"); ("age", VInt 30)]
                                 [("name", VStr "Alice"); ("age", VInt 31)]))
             "age").
    left. simpl. tauto.
Defined.

(** C10: on two dicts, a key that only one side has, with a value that is
    not [None], scores exactly 0 whatever the value holds and whatever the
    differ reports: the missing side reads as [None]. *)
Theorem one_sided_key_scores_zero
    (DeepDiff : value -> value -> bool -> DiffResult)
    (expected extracted : list (string * value)) (key : string) :
  (In key (keys expected) /\ ~ In key (keys extracted)
   /\ dict_get expected key <> VNone)
  \/ (In key (keys extracted) /\ ~ In key (keys expected)
      /\ dict_get extracted key <> VNone) ->
  lookup key (calculate_field_level_scores DeepDiff
                (VDict expected) (VDict extracted))
  = Some 0%Q.
Proof.
  intros H.
  rewrite calculate_field_level_scores_lookup by tauto.
  f_equal. unfold field_score, calculate_similarity_score.
  destruct H as [ (_ & Hout & Hval) | (_ & Hout & Hval) ];
    rewrite (dict_get_missing _ _ Hout).
  - destruct (dict_get expected key); try reflexivity. congruence.
  - destruct (dict_get extracted key); try reflexivity. congruence.
Qed.

(** A key the answer lacks and a key the answer adds, each holding a large
    value. *)
Lemma one_sided_key_scores_zero_witness :
  lookup "items"
    (calculate_field_level_scores Ref.DeepDiff
       (VDict [("items", VList [VInt 1; VInt 2; VInt 3])]) (VDict []))
  = Some 0%Q
  /\ lookup "extra"
       (calculate_field_level_scores Ref.DeepDiff
          (VDict [("x", VInt 1)])
          (VDict [("x", VInt 1);
                  ("extra", VDict [("a", VInt 1); ("b", VInt 2)])]))
     = Some 0%Q.
Proof.
  split.
  - apply one_sided_key_scores_zero. left. simpl.
    repeat split; [ tauto | tauto | discriminate ].
  - apply one_sided_key_scores_zero. right. simpl.
    repeat split; [ tauto | | discriminate ].
    intros [ H | [] ]. discriminate.
Defined.


(** ** Extraction *)

Section ParseFacts.
Variable loads : string -> decoded.

Lemma parse_dict (d : list (string * value)) :
  parse_json_from_response loads (VDict d) = Ok (VDict d).
Proof. reflexivity. Qed.

Lemma try_loads_decoded (s : string) (v : value) (otherwise : result value) :
  loads s = Decoded v -> try_loads loads (VStr s) otherwise = Ok v.
Proof. intros H. unfold try_loads, json_loads. rewrite H. reflexivity. Qed.

Lemma try_loads_undecodable (s : string) (otherwise : result value) :
  undecodable loads s -> try_loads loads (VStr s) otherwise = otherwise.
Proof.
  intros [msg H]. unfold try_loads, json_loads. rewrite H. reflexivity.
Qed.

Lemma try_loads_attempt (found : option string) (otherwise : result value) :
  attempt_fails loads found ->
  match found with
  | Some text => try_loads loads (VStr text) otherwise
  | None => otherwise
  end = otherwise.
Proof.
  destruct found as [ text | ]; simpl; intros H.
  - apply try_loads_undecodable. exact H.
  - reflexivity.
Qed.

(** First attempt: the whole text. *)
Lemma parse_whole (s : string) (v : value) :
  loads s = Decoded v -> parse_json_from_response loads (VStr s) = Ok v.
Proof.
  intros H. unfold parse_json_from_response. simpl.
  apply try_loads_decoded. exact H.
Qed.

(** Second attempt: the text between the braces. *)
Lemma parse_braces (s m : string) (v : value) :
  undecodable loads s -> search_braces s = Some m -> loads m = Decoded v ->
  parse_json_from_response loads (VStr s) = Ok v.
Proof.
  intros Hs Hm Hv. unfold parse_json_from_response. simpl.
  rewrite try_loads_undecodable by exact Hs. simpl. rewrite Hm.
  apply try_loads_decoded. exact Hv.
Qed.

(** Third attempt: the payload of a fenced code block. *)
Lemma parse_code_block (s p : string) (v : value) :
  undecodable loads s -> attempt_fails loads (search_braces s) ->
  search_code_block s = Some p -> loads p = Decoded v ->
  parse_json_from_response loads (VStr s) = Ok v.
Proof.
  intros Hs Hm Hp Hv. unfold parse_json_from_response. simpl.
  rewrite try_loads_undecodable by exact Hs. simpl.
  rewrite try_loads_attempt by exact Hm. rewrite Hp.
  apply try_loads_decoded. exact Hv.
Qed.

(** No attempt succeeds. *)
Lemma parse_nothing (s : string) :
  undecodable loads s -> attempt_fails loads (search_braces s) ->
  attempt_fails loads (search_code_block s) ->
  parse_json_from_response loads (VStr s) = Ok VNone.
Proof.
  intros Hs Hm Hp. unfold parse_json_from_response. simpl.
  rewrite try_loads_undecodable by exact Hs. simpl.
  rewrite try_loads_attempt by exact Hm.
  apply (try_loads_attempt _ (Ok VNone)). exact Hp.
Qed.

Lemma try_loads_raises (s : string) (e : exn) (otherwise : result value) :
  loads_raises loads s e -> try_loads loads (VStr s) otherwise = Raise e.
Proof.
  intros [ [H ->] | [H ->] ]; unfold try_loads, json_loads; rewrite H;
    reflexivity.
Qed.

(** An exception of [json.loads] other than [JSONDecodeError] leaves the
    function, at whichever attempt it is raised. *)
Lemma parse_whole_raises (s : string) (e : exn) :
  loads_raises loads s e ->
  parse_json_from_response loads (VStr s) = Raise e.
Proof.
  intros H. unfold parse_json_from_response. simpl.
  apply try_loads_raises. exact H.
Qed.

Lemma parse_braces_raises (s m : string) (e : exn) :
  undecodable loads s -> search_braces s = Some m ->
  loads_raises loads m e ->
  parse_json_from_response loads (VStr s) = Raise e.
Proof.
  intros Hs Hm He. unfold parse_json_from_response. simpl.
  rewrite try_loads_undecodable by exact Hs. simpl. rewrite Hm.
  apply try_loads_raises. exact He.
Qed.

Lemma parse_code_block_raises (s p : string) (e : exn) :
  undecodable loads s -> attempt_fails loads (search_braces s) ->
  search_code_block s = Some p -> loads_raises loads p e ->
  parse_json_from_response loads (VStr s) = Raise e.
Proof.
  intros Hs Hm Hp He. unfold parse_json_from_response. simpl.
  rewrite try_loads_undecodable by exact Hs. simpl.
  rewrite try_loads_attempt by exact Hm. rewrite Hp.
  apply try_loads_raises. exact He.
Qed.

Lemma try_loads_str_outcome (s : string) (otherwise : result value) :
  (forall e, otherwise = Raise e -> escaping e) ->
  forall e, try_loads loads (VStr s) otherwise = Raise e -> escaping e.
Proof.
  intros Ho e. unfold try_loads, json_loads.
  destruct (loads s) as [ v | msg | | ].
  - discriminate.
  - apply Ho.
  - intros H. injection H as <-. left. reflexivity.
  - intros H. injection H as <-. right. reflexivity.
Qed.

(** On a string the function returns or raises one of the exceptions
    [json.loads] raises besides [JSONDecodeError]. *)
Lemma parse_str_outcome (s : string) (e : exn) :
  parse_json_from_response loads (VStr s) = Raise e -> escaping e.
Proof.
  unfold parse_json_from_response. simpl.
  apply try_loads_str_outcome. simpl.
  assert (Hlast : forall e,
             match search_code_block s with
             | Some group1 => try_loads loads (VStr group1) (Ok VNone)
             | None => Ok VNone
             end = Raise e -> escaping e).
  { destruct (search_code_block s).
    - apply try_loads_str_outcome. discriminate.
    - discriminate. }
  destruct (search_braces s).
  - apply try_loads_str_outcome. exact Hlast.
  - exact Hlast.
Qed.

(** An object that is neither a dict nor a string makes [json.loads]
    raise [TypeError], which nothing catches. *)
Lemma parse_other_object (response : value) :
  is_dict response = false ->
  (forall s, response <> VStr s) ->
  parse_json_from_response loads response = Raise TypeError.
Proof.
  intros Hd Hs. unfold parse_json_from_response. rewrite Hd.
  destruct response; try reflexivity. elim (Hs s). reflexivity.
Qed.

(** [JSONDecodeError] never leaves the function: every [json.loads] is
    inside a [try] that catches it. *)
Lemma parse_never_JSONDecodeError (response : value) (msg : string) :
  parse_json_from_response loads response <> Raise (JSONDecodeError msg).
Proof.
  destruct response as [ | b | n | x | s | items | d | t ];
    try (rewrite parse_other_object;
         [ discriminate | reflexivity | discriminate ]).
  - intros H. apply parse_str_outcome in H.
    destruct H as [ H | H ]; discriminate H.
  - rewrite parse_dict. discriminate.
Qed.

(** No division happens while parsing. *)
Lemma parse_never_ZeroDivisionError (response : value) :
  parse_json_from_response loads response <> Raise ZeroDivisionError.
Proof.
  destruct response as [ | b | n | x | s | items | d | t ];
    try (rewrite parse_other_object;
         [ discriminate | reflexivity | discriminate ]).
  - intros H. apply parse_str_outcome in H.
    destruct H as [ H | H ]; discriminate H.
  - rewrite parse_dict. discriminate.
Qed.
End ParseFacts.

(** ** The two patterns *)

Lemma append_assoc (a b c : string) : ((a ++ b) ++ c = a ++ (b ++ c))%string.
Proof.
  induction a as [ | x a IH ]; simpl;
    [ reflexivity | rewrite IH; reflexivity ].
Qed.

Lemma strip_prefix_append (p s rest : string) :
  strip_prefix p s = Some rest -> s = (p ++ rest)%string.
Proof.
  revert s. induction p as [ | a p IH ]; intros s H; simpl in *.
  - congruence.
  - destruct s as [ | b s ]; [ discriminate | ].
    destruct (Ascii.eqb a b) eqn:E; [ | discriminate ].
    apply Ascii.eqb_eq in E. subst b. rewrite (IH s H). reflexivity.
Qed.

Lemma skip_spaces_append (s : string) :
  exists ws, s = (ws ++ skip_spaces s)%string /\ all_spaces ws = true.
Proof.
  induction s as [ | c s IH ]; simpl.
  - exists EmptyString. split; reflexivity.
  - destruct (is_space c) eqn:E.
    + destruct IH as (ws & Hs & Hws). exists (String c ws). simpl.
      rewrite E, Hws, <- Hs. split; reflexivity.
    + exists EmptyString. split; reflexivity.
Qed.

Lemma from_open_brace_append (s t : string) :
  from_open_brace s = Some t ->
  exists pre rest,
    t = String open_brace rest /\ s = (pre ++ t)%string
    /\ has_char open_brace pre = false.
Proof.
  induction s as [ | c s IH ]; simpl; [ discriminate | ].
  destruct (Ascii.eqb c open_brace) eqn:E.
  - intros H. injection H as <-. apply Ascii.eqb_eq in E. subst c.
    exists EmptyString, s. repeat split.
  - intros H. destruct (IH H) as (pre & rest & Ht & Hs & Hpre).
    exists (String c pre), rest. repeat split.
    + exact Ht.
    + cbn [append]. rewrite <- Hs. reflexivity.
    + cbn [has_char]. rewrite (Ascii.eqb_sym open_brace c), E. exact Hpre.
Qed.

Lemma through_last_close_none (s : string) :
  through_last_close s = None -> has_char close_brace s = false.
Proof.
  induction s as [ | c s IH ]; cbn [through_last_close has_char];
    [ reflexivity | ].
  destruct (through_last_close s); [ discriminate | ].
  rewrite (Ascii.eqb_sym close_brace c).
  destruct (Ascii.eqb c close_brace); [ discriminate | ].
  intros _. apply IH. reflexivity.
Qed.

Lemma through_last_close_append (s m : string) :
  through_last_close s = Some m ->
  exists body post,
    m = (body ++ String close_brace EmptyString)%string
    /\ s = (m ++ post)%string /\ has_char close_brace post = false.
Proof.
  revert m. induction s as [ | c s IH ]; simpl; intros m; [ discriminate | ].
  destruct (through_last_close s) as [ m' | ] eqn:Hs.
  - intros H. injection H as <-.
    destruct (IH m' eq_refl) as (body & post & Hm & Hs' & Hpost).
    exists (String c body), post. simpl. rewrite <- Hm, <- Hs'.
    repeat split. exact Hpost.
  - destruct (Ascii.eqb c close_brace) eqn:E; [ | discriminate ].
    intros H. injection H as <-. apply Ascii.eqb_eq in E. subst c.
    exists EmptyString, s. repeat split.
    apply through_last_close_none. exact Hs.
Qed.

Lemma through_last_close_found (a b : string) :
  through_last_close (a ++ String close_brace b) <> None.
Proof.
  induction a as [ | c a IH ]; simpl.
  - destruct (through_last_close b); discriminate.
  - destruct (through_last_close (a ++ String close_brace b));
      [ discriminate | contradiction ].
Qed.

(** What [search_braces] finds starts at the first opening brace of the
    text and ends at its last closing brace. *)
Lemma search_braces_sound (s m : string) :
  search_braces s = Some m ->
  exists pre body post,
    s = (pre ++ m ++ post)%string
    /\ m = String open_brace (body ++ String close_brace EmptyString)
    /\ has_char open_brace pre = false
    /\ has_char close_brace post = false.
Proof.
  unfold search_braces.
  destruct (from_open_brace s) as [ t | ] eqn:Ht; [ | discriminate ].
  destruct (from_open_brace_append s t Ht) as (pre & rest & -> & Hs & Hpre).
  destruct (through_last_close rest) as [ m' | ] eqn:Hm; [ | discriminate ].
  intros H. injection H as <-.
  destruct (through_last_close_append rest m' Hm)
    as (body & post & -> & Hr & Hpost).
  exists pre, body, post. repeat split; try assumption.
  rewrite Hs, Hr. reflexivity.
Qed.

(** It finds something whenever a closing brace follows an opening one. *)
Lemma search_braces_complete (pre body post : string) :
  search_braces (pre ++ String open_brace (body ++ String close_brace post))
  <> None.
Proof.
  induction pre as [ | c pre IH ].
  - unfold search_braces. simpl.
    pose proof (through_last_close_found body post) as H.
    destruct (through_last_close (body ++ String close_brace post));
      [ discriminate | contradiction ].
  - unfold search_braces in *. simpl.
    destruct (Ascii.eqb c open_brace) eqn:E; [ | exact IH ].
    pose proof (through_last_close_found
                  (pre ++ String open_brace body) post) as H.
    rewrite append_assoc in H. simpl in H.
    destruct (through_last_close
                (pre ++ String open_brace (body ++ String close_brace post)));
      [ discriminate | contradiction ].
Qed.

Lemma through_closing_fence_append (s m : string) :
  through_closing_fence s = Some m ->
  exists body ws post,
    m = (body ++ String close_brace EmptyString)%string
    /\ s = (m ++ ws ++ fence ++ post)%string /\ all_spaces ws = true.
Proof.
  revert m. induction s as [ | c s IH ]; cbn [through_closing_fence];
    intros m; [ discriminate | ].
  destruct (Ascii.eqb c close_brace
            && is_Some (strip_prefix fence (skip_spaces s))) eqn:E.
  - intros H. injection H as <-.
    apply andb_prop in E. destruct E as [Ec Ef].
    apply Ascii.eqb_eq in Ec. subst c.
    destruct (strip_prefix fence (skip_spaces s)) as [ post | ] eqn:Hp;
      [ | discriminate ].
    apply strip_prefix_append in Hp.
    destruct (skip_spaces_append s) as (ws & Hs & Hws).
    exists EmptyString, ws, post. repeat split; [ | exact Hws ].
    cbn [append]. rewrite Hs at 1. rewrite Hp. reflexivity.
  - destruct (through_closing_fence s) as [ m' | ]; [ | discriminate ].
    intros H. injection H as <-.
    destruct (IH m' eq_refl) as (body & ws & post & Hm & Hs & Hws).
    exists (String c body), ws, post. cbn [append]. rewrite <- Hm, <- Hs.
    repeat split. exact Hws.
Qed.

Lemma match_payload_append (s p : string) :
  match_payload s = Some p ->
  exists ws1 body ws2 post,
    s = (ws1 ++ p ++ ws2 ++ fence ++ post)%string
    /\ p = String open_brace (body ++ String close_brace EmptyString)
    /\ all_spaces ws1 = true /\ all_spaces ws2 = true.
Proof.
  unfold match_payload.
  destruct (skip_spaces_append s) as (ws1 & Hs & Hws1).
  destruct (skip_spaces s) as [ | c rest ]; [ discriminate | ].
  destruct (Ascii.eqb c open_brace) eqn:E; [ | discriminate ].
  apply Ascii.eqb_eq in E. subst c.
  destruct (through_closing_fence rest) as [ m | ] eqn:Hm; [ | discriminate ].
  intros H. injection H as <-.
  destruct (through_closing_fence_append rest m Hm)
    as (body & ws2 & post & -> & Hr & Hws2).
  exists ws1, body, ws2, post. repeat split; try assumption.
  rewrite Hs at 1. rewrite Hr. reflexivity.
Qed.

(** What [search_code_block] finds is a brace-delimited payload between
    two fences, the first one optionally tagged [json], with nothing but
    white space around the payload. *)
Lemma search_code_block_sound (s p : string) :
  search_code_block s = Some p ->
  exists pre tag ws1 body ws2 post,
    s = (pre ++ fence ++ tag ++ ws1 ++ p ++ ws2 ++ fence ++ post)%string
    /\ (tag = EmptyString \/ tag = "json"%string)
    /\ p = String open_brace (body ++ String close_brace EmptyString)
    /\ all_spaces ws1 = true /\ all_spaces ws2 = true.
Proof.
  assert (Hhere : forall t, match_code_block t = Some p ->
    exists tag ws1 body ws2 post,
      t = (fence ++ tag ++ ws1 ++ p ++ ws2 ++ fence ++ post)%string
      /\ (tag = EmptyString \/ tag = "json"%string)
      /\ p = String open_brace (body ++ String close_brace EmptyString)
      /\ all_spaces ws1 = true /\ all_spaces ws2 = true).
  { intros t. unfold match_code_block.
    destruct (strip_prefix fence t) as [ after_fence | ] eqn:Hf;
      [ | discriminate ].
    apply strip_prefix_append in Hf.
    destruct (strip_prefix "json" after_fence) as [ after_tag | ] eqn:Ht.
    - apply strip_prefix_append in Ht.
      destruct (match_payload after_tag) as [ p' | ] eqn:Hp.
      + intros H. injection H as ->.
        destruct (match_payload_append _ _ Hp)
          as (ws1 & body & ws2 & post & Ha & Hb & H1 & H2).
        exists "json"%string, ws1, body, ws2, post.
        repeat split; try assumption; [ | right; reflexivity ].
        rewrite Hf, Ht, Ha. reflexivity.
      + intros Hp'.
        destruct (match_payload_append _ _ Hp')
          as (ws1 & body & ws2 & post & Ha & Hb & H1 & H2).
        exists EmptyString, ws1, body, ws2, post.
        repeat split; try assumption; [ | left; reflexivity ].
        rewrite Hf, Ha. reflexivity.
    - intros Hp'.
      destruct (match_payload_append _ _ Hp')
        as (ws1 & body & ws2 & post & Ha & Hb & H1 & H2).
      exists EmptyString, ws1, body, ws2, post.
      repeat split; try assumption; [ | left; reflexivity ].
      rewrite Hf, Ha. reflexivity. }
  induction s as [ | c s IH ]; cbn [search_code_block].
  - destruct (match_code_block EmptyString) eqn:E; [ | discriminate ].
    intros H. injection H as ->.
    destruct (Hhere _ E) as (tag & ws1 & body & ws2 & post & H).
    exists EmptyString, tag, ws1, body, ws2, post. exact H.
  - destruct (match_code_block (String c s)) eqn:E.
    + intros H. injection H as ->.
      destruct (Hhere _ E) as (tag & ws1 & body & ws2 & post & H).
      exists EmptyString, tag, ws1, body, ws2, post. exact H.
    + intros H.
      destruct (IH H) as (pre & tag & ws1 & body & ws2 & post & Hs & Hrest).
      exists (String c pre), tag, ws1, body, ws2, post.
      split; [ | exact Hrest ]. cbn [append]. rewrite <- Hs. reflexivity.
Qed.

Lemma from_open_brace_skip (pre rest : string) :
  has_char open_brace pre = false ->
  from_open_brace (pre ++ String open_brace rest)
  = Some (String open_brace rest).
Proof.
  induction pre as [ | c pre IH ]; cbn [append has_char from_open_brace].
  - reflexivity.
  - rewrite (Ascii.eqb_sym open_brace c).
    destruct (Ascii.eqb c open_brace); [ discriminate | ].
    intros H. apply IH. exact H.
Qed.

Lemma through_last_close_absent (s : string) :
  has_char close_brace s = false -> through_last_close s = None.
Proof.
  induction s as [ | c s IH ]; cbn [has_char through_last_close].
  - reflexivity.
  - rewrite (Ascii.eqb_sym close_brace c).
    destruct (Ascii.eqb c close_brace); [ discriminate | ].
    intros H. rewrite (IH H). reflexivity.
Qed.

Lemma through_last_close_stop (body post : string) :
  has_char close_brace post = false ->
  through_last_close (body ++ String close_brace post)
  = Some (body ++ String close_brace EmptyString)%string.
Proof.
  intros Hpost. induction body as [ | c body IH ].
  - cbn [append through_last_close].
    rewrite (through_last_close_absent post Hpost).
    change (Ascii.eqb close_brace close_brace) with true. reflexivity.
  - cbn [append through_last_close]. rewrite IH. reflexivity.
Qed.

Lemma search_braces_exact (pre body post : string) :
  has_char open_brace pre = false ->
  has_char close_brace post = false ->
  search_braces
    (pre ++ String open_brace (body ++ String close_brace EmptyString) ++ post)
  = Some (String open_brace (body ++ String close_brace EmptyString)).
Proof.
  intros Hpre Hpost. unfold search_braces. cbn [append].
  rewrite from_open_brace_skip by exact Hpre.
  rewrite append_assoc. cbn [append].
  rewrite through_last_close_stop by exact Hpost. reflexivity.
Qed.

Lemma append_length (a b : string) :
  String.length (a ++ b) = (String.length a + String.length b)%nat.
Proof.
  induction a as [ | c a IH ]; cbn [append String.length];
    [ reflexivity | rewrite IH; reflexivity ].
Qed.

Lemma strip_prefix_whole (p rest : string) :
  strip_prefix p (p ++ rest) = Some rest.
Proof.
  induction p as [ | c p IH ]; cbn [append strip_prefix].
  - reflexivity.
  - rewrite Ascii.eqb_refl. exact IH.
Qed.

Lemma skip_spaces_run (ws rest : string) (c : ascii) :
  all_spaces ws = true -> is_space c = false ->
  skip_spaces (ws ++ String c rest) = String c rest.
Proof.
  intros Hws Hc. induction ws as [ | x ws IH ].
  - cbn [append skip_spaces]. rewrite Hc. reflexivity.
  - cbn [all_spaces] in Hws. apply andb_prop in Hws. destruct Hws as [Hx Hws].
    cbn [append skip_spaces]. rewrite Hx. apply IH. exact Hws.
Qed.

Lemma skip_spaces_before_fence (ws post : string) :
  all_spaces ws = true ->
  skip_spaces (ws ++ fence ++ post) = (fence ++ post)%string.
Proof.
  intros Hws. apply (skip_spaces_run ws _ "`"%char Hws). reflexivity.
Qed.

(** The lazy scan stops at the first closing brace that white space and a
    fence follow. *)
Lemma through_closing_fence_complete (body ws post : string) :
  all_spaces ws = true ->
  exists found,
    through_closing_fence (body ++ String close_brace (ws ++ fence ++ post))
    = Some found
    /\ (String.length found <= String.length body + 1)%nat.
Proof.
  intros Hws. induction body as [ | c body IH ].
  - exists (String close_brace EmptyString). split; [ | cbn; lia ].
    cbn [append through_closing_fence].
    rewrite skip_spaces_before_fence by exact Hws.
    rewrite strip_prefix_whole. reflexivity.
  - destruct IH as (found & Hfound & Hlen).
    cbn [append through_closing_fence].
    destruct (Ascii.eqb c close_brace && is_Some _).
    + exists (String c EmptyString). split; [ reflexivity | cbn; lia ].
    + rewrite Hfound. exists (String c found).
      split; [ reflexivity | cbn [String.length]; lia ].
Qed.

Lemma match_payload_complete (ws1 body ws2 post : string) :
  all_spaces ws1 = true -> all_spaces ws2 = true ->
  exists found,
    match_payload
      (ws1 ++ String open_brace (body ++ String close_brace EmptyString)
           ++ ws2 ++ fence ++ post)
    = Some (String open_brace found)
    /\ (String.length found <= String.length body + 1)%nat.
Proof.
  intros H1 H2. unfold match_payload. cbn [append].
  rewrite (skip_spaces_run ws1 _ open_brace H1 eq_refl).
  rewrite Ascii.eqb_refl. rewrite append_assoc. cbn [append].
  destruct (through_closing_fence_complete body ws2 post H2)
    as (found & Hfound & Hlen).
  rewrite Hfound. exists found. split; [ reflexivity | exact Hlen ].
Qed.

Lemma strip_json_none (ws rest : string) :
  all_spaces ws = true ->
  strip_prefix "json" (ws ++ String open_brace rest) = None.
Proof.
  destruct ws as [ | c ws ]; intros Hws.
  - reflexivity.
  - cbn [all_spaces] in Hws. apply andb_prop in Hws. destruct Hws as [Hc _].
    cbn [append strip_prefix].
    destruct (Ascii.eqb "j" c) eqn:E; [ | reflexivity ].
    apply Ascii.eqb_eq in E. subst c. discriminate Hc.
Qed.

Lemma match_code_block_sound (t p : string) :
  match_code_block t = Some p -> fenced_payload t p.
Proof.
  unfold match_code_block, fenced_payload.
  destruct (strip_prefix fence t) as [ after_fence | ] eqn:Hf;
    [ | discriminate ].
  apply strip_prefix_append in Hf.
  assert (Huntagged : match_payload after_fence = Some p ->
    exists tag ws1 body ws2 post,
      t = (fence ++ tag ++ ws1 ++ p ++ ws2 ++ fence ++ post)%string
      /\ (tag = EmptyString \/ tag = "json"%string)
      /\ p = String open_brace (body ++ String close_brace EmptyString)
      /\ all_spaces ws1 = true /\ all_spaces ws2 = true).
  { intros Hp.
    destruct (match_payload_append _ _ Hp)
      as (ws1 & body & ws2 & post & Ha & Hb & H1 & H2).
    exists EmptyString, ws1, body, ws2, post.
    repeat split; try assumption; [ | left; reflexivity ].
    rewrite Hf, Ha. reflexivity. }
  destruct (strip_prefix "json" after_fence) as [ after_tag | ] eqn:Ht;
    [ | exact Huntagged ].
  apply strip_prefix_append in Ht.
  destruct (match_payload after_tag) as [ p' | ] eqn:Hp; [ | exact Huntagged ].
  intros H. injection H as ->.
  destruct (match_payload_append _ _ Hp)
    as (ws1 & body & ws2 & post & Ha & Hb & H1 & H2).
  exists "json"%string, ws1, body, ws2, post.
  repeat split; try assumption; [ | right; reflexivity ].
  rewrite Hf, Ht, Ha. reflexivity.
Qed.

(** Where the pattern can match, [match_code_block] finds a payload, and
    no payload of a match at that place is shorter. *)
Lemma match_code_block_complete (t p' : string) :
  fenced_payload t p' ->
  exists p,
    match_code_block t = Some p
    /\ (String.length p <= String.length p')%nat.
Proof.
  intros (tag & ws1 & body & ws2 & post & -> & Htag & -> & H1 & H2).
  destruct (match_payload_complete ws1 body ws2 post H1 H2)
    as (found & Hfound & Hlen).
  exists (String open_brace found). split.
  - unfold match_code_block. rewrite strip_prefix_whole.
    destruct Htag as [ -> | -> ].
    + cbn [append]. rewrite strip_json_none by exact H1. exact Hfound.
    + rewrite strip_prefix_whole. rewrite Hfound. reflexivity.
  - cbn [String.length]. rewrite append_length. cbn [String.length]. lia.
Qed.

(** [search_code_block] returns group 1 of the leftmost match, the one
    with the shortest payload there. *)
Lemma search_code_block_leftmost (s p : string) :
  search_code_block s = Some p ->
  exists pre t,
    s = (pre ++ t)%string /\ fenced_payload t p
    /\ (forall pre' t' p',
           s = (pre' ++ t')%string ->
           (String.length pre' < String.length pre)%nat ->
           ~ fenced_payload t' p')
    /\ (forall p', fenced_payload t p' ->
                   (String.length p <= String.length p')%nat).
Proof.
  assert (Hhere : forall t, match_code_block t = Some p ->
    exists pre t0,
      t = (pre ++ t0)%string /\ fenced_payload t0 p
      /\ (forall pre' t' p',
             t = (pre' ++ t')%string ->
             (String.length pre' < String.length pre)%nat ->
             ~ fenced_payload t' p')
      /\ (forall p', fenced_payload t0 p' ->
                     (String.length p <= String.length p')%nat)).
  { intros t Ht. exists EmptyString, t. repeat split.
    - apply match_code_block_sound. exact Ht.
    - intros pre' t' p' _ Hlen. cbn in Hlen. lia.
    - intros p' Hp'. destruct (match_code_block_complete t p' Hp')
        as (p0 & Hp0 & Hlen). congruence. }
  induction s as [ | c s IH ]; cbn [search_code_block].
  - destruct (match_code_block EmptyString) eqn:E; [ | discriminate ].
    intros H. injection H as ->. apply Hhere. exact E.
  - destruct (match_code_block (String c s)) eqn:E.
    + intros H. injection H as ->. apply Hhere. exact E.
    + intros H.
      destruct (IH H) as (pre & t & Hs & Hmatch & Hleft & Hshort).
      exists (String c pre), t. repeat split.
      * cbn [append]. rewrite <- Hs. reflexivity.
      * exact Hmatch.
      * intros pre' t' p' Hs' Hlen Hp'.
        destruct pre' as [ | c' pre' ].
        -- cbn [append] in Hs'. subst t'.
           destruct (match_code_block_complete _ p' Hp') as (p0 & Hp0 & _).
           congruence.
        -- cbn [append] in Hs'. injection Hs' as <- Hs'.
           apply (Hleft pre' t' p' Hs'); [ | exact Hp' ].
           cbn [String.length] in Hlen. lia.
      * exact Hshort.
Qed.

(** It finds nothing only when the pattern matches nowhere. *)
Lemma search_code_block_none (s : string) :
  search_code_block s = None ->
  forall pre t p, s = (pre ++ t)%string -> ~ fenced_payload t p.
Proof.
  induction s as [ | c s IH ]; cbn [search_code_block];
    intros Hnone pre t p Hs Hp.
  - destruct pre; [ | discriminate Hs ]. cbn [append] in Hs. subst t.
    destruct (match_code_block_complete _ p Hp) as (p0 & Hp0 & _).
    rewrite Hp0 in Hnone. discriminate Hnone.
  - destruct (match_code_block (String c s)) eqn:E; [ discriminate | ].
    destruct pre as [ | c' pre ].
    + cbn [append] in Hs. subst t.
      destruct (match_code_block_complete _ p Hp) as (p0 & Hp0 & _).
      congruence.
    + cbn [append] in Hs. injection Hs as <- Hs.
      exact (IH Hnone pre t p Hs Hp).
Qed.

(** C6, as the code has it: [parse_json_from_response] returns a dict it
    is given unchanged.  On a string it tries, in this order, the whole
    text, the text from the first opening brace to the last closing brace,
    and the brace-delimited payload of the leftmost fenced code block; it
    returns the first object [json.loads] decodes, and [None] when every
    attempt finds nothing or ends in a [JSONDecodeError].  A
    [JSONDecodeError] never leaves it; another exception of [json.loads]
    ([ValueError], [RecursionError]) leaves it at the attempt that raises
    it, and nothing else does on a string. *)
Theorem parse_json_from_response_contract (loads : string -> decoded) :
  (forall d, parse_json_from_response loads (VDict d) = Ok (VDict d))
  /\ (forall s,
        (forall v, loads s = Decoded v ->
                   parse_json_from_response loads (VStr s) = Ok v)
        /\ (forall m v,
               undecodable loads s ->
               search_braces s = Some m -> loads m = Decoded v ->
               parse_json_from_response loads (VStr s) = Ok v)
        /\ (forall p v,
               undecodable loads s ->
               attempt_fails loads (search_braces s) ->
               search_code_block s = Some p -> loads p = Decoded v ->
               parse_json_from_response loads (VStr s) = Ok v)
        /\ (undecodable loads s ->
            attempt_fails loads (search_braces s) ->
            attempt_fails loads (search_code_block s) ->
            parse_json_from_response loads (VStr s) = Ok VNone)
        /\ (forall e,
               loads_raises loads s e ->
               parse_json_from_response loads (VStr s) = Raise e)
        /\ (forall m e,
               undecodable loads s ->
               search_braces s = Some m -> loads_raises loads m e ->
               parse_json_from_response loads (VStr s) = Raise e)
        /\ (forall p e,
               undecodable loads s ->
               attempt_fails loads (search_braces s) ->
               search_code_block s = Some p -> loads_raises loads p e ->
               parse_json_from_response loads (VStr s) = Raise e)
        /\ (forall e,
               parse_json_from_response loads (VStr s) = Raise e ->
               e = ValueError \/ e = RecursionError))
  /\ (forall s m,
        search_braces s = Some m
        <-> exists pre body post,
              s = (pre ++ m ++ post)%string
              /\ m = String open_brace (body ++ String close_brace EmptyString)
              /\ has_char open_brace pre = false
              /\ has_char close_brace post = false)
  /\ (forall s,
        search_braces s = None
        <-> ~ exists pre body post,
              s = (pre ++ String open_brace
                            (body ++ String close_brace post))%string)
  /\ (forall s p,
        search_code_block s = Some p ->
        exists pre t,
          s = (pre ++ t)%string /\ fenced_payload t p
          /\ (forall pre' t' p',
                 s = (pre' ++ t')%string ->
                 (String.length pre' < String.length pre)%nat ->
                 ~ fenced_payload t' p')
          /\ (forall p', fenced_payload t p' ->
                         (String.length p <= String.length p')%nat))
  /\ (forall s,
        search_code_block s = None ->
        forall pre t p, s = (pre ++ t)%string -> ~ fenced_payload t p).
Proof.
  split; [ apply parse_dict | ].
  split; [ | split; [ | split; [ | split ] ] ].
  - intros s. repeat split.
    + apply parse_whole.
    + apply parse_braces.
    + apply parse_code_block.
    + apply parse_nothing.
    + apply parse_whole_raises.
    + apply parse_braces_raises.
    + apply parse_code_block_raises.
    + apply parse_str_outcome.
  - intros s m. split.
    + apply search_braces_sound.
    + intros (pre & body & post & -> & -> & Hpre & Hpost).
      apply search_braces_exact; assumption.
  - intros s. split.
    + intros Hnone (pre & body & post & ->).
      exact (search_braces_complete pre body post Hnone).
    + intros Hno. destruct (search_braces s) as [ m | ] eqn:Hm;
        [ | reflexivity ].
      elim Hno.
      destruct (search_braces_sound s m Hm)
        as (pre & body & post & Hs & -> & _).
      exists pre, body, post. rewrite Hs. cbn [append].
      rewrite append_assoc. reflexivity.
  - apply search_code_block_leftmost.
  - apply search_code_block_none.
Qed.

(** The three fallbacks on the reference reader: an object after prose and
    inside a fence is found between the braces; when a stray brace spoils
    that attempt the fenced payload is found; plain prose gives [None]. *)
Lemma parse_json_from_response_contract_witness :
  parse_json_from_response Ref.loads (VStr Scenario.fenced_x1)
  = Ok Scenario.x1_data
  /\ parse_json_from_response Ref.loads (VStr "``` {} ``` }") = Ok (VDict [])
  /\ parse_json_from_response Ref.loads (VStr Scenario.not_json) = Ok VNone.
Proof.
  destruct (parse_json_from_response_contract Ref.loads) as (_ & Hstr & _).
  split; [ | split ].
  - destruct (Hstr Scenario.fenced_x1) as (_ & Hbraces & _).
    apply (Hbraces Scenario.x1).
    + exists "Expecting value"%string. vm_compute. reflexivity.
    + vm_compute. reflexivity.
    + vm_compute. reflexivity.
  - destruct (Hstr "``` {} ``` }"%string) as (_ & _ & Hblock & _).
    apply (Hblock "{}"%string).
    + exists "Expecting value"%string. vm_compute. reflexivity.
    + exists "Extra data"%string. vm_compute. reflexivity.
    + vm_compute. reflexivity.
    + vm_compute. reflexivity.
  - destruct (Hstr Scenario.not_json) as (_ & _ & _ & Hnone & _).
    apply Hnone.
    + exists "Expecting value"%string. vm_compute. reflexivity.
    + exact I.
    + exact I.
Defined.

(** C6 as stated fails on a parsed value that is not a dict: the list
    [[1, 2]] is not returned unchanged, [json.loads] raises [TypeError] on
    it. *)
Lemma parse_list_raises :
  parse_json_from_response Ref.loads (VList [VInt 1; VInt 2])
  = Raise TypeError.
Proof. reflexivity. Qed.

(** ** The mean of the field scores *)

Lemma fold_left_Qplus_acc (xs : list Q) (acc : Q) :
  (fold_left Qplus xs acc == acc + fold_right Qplus 0 xs)%Q.
Proof.
  revert acc. induction xs as [ | x xs IH ]; intros acc; simpl.
  - ring.
  - rewrite IH. ring.
Qed.

Lemma py_fsum_total (xs : list Q) : (py_fsum xs == fold_right Qplus 0 xs)%Q.
Proof. unfold py_fsum. rewrite fold_left_Qplus_acc. ring. Qed.

Lemma total_bounds (xs : list Q) :
  Forall unit_score xs ->
  (0 <= fold_right Qplus 0 xs
   /\ fold_right Qplus 0 xs <= inject_Z (Z.of_nat (List.length xs)))%Q.
Proof.
  induction 1 as [ | x xs [Hx0 Hx1] _ [IH0 IH1] ].
  - simpl. split; discriminate.
  - cbn [fold_right List.length]. rewrite Nat2Z.inj_succ.
    unfold Z.succ. rewrite inject_Z_plus. change (inject_Z 1) with 1%Q.
    revert IH0 IH1.
    generalize (inject_Z (Z.of_nat (List.length xs))).
    generalize (fold_right Qplus 0%Q xs).
    intros total bound IH0 IH1. split; lra.
Qed.

Lemma mean_unit (xs : list Q) :
  Forall unit_score xs -> xs <> [] -> unit_score (Spec.mean xs).
Proof.
  intros Hxs Hne. destruct (total_bounds xs Hxs) as [H0 H1].
  assert (Hn : (0 < inject_Z (Z.of_nat (List.length xs)))%Q).
  { destruct xs as [ | x xs ]; [ congruence | ].
    change 0%Q with (inject_Z 0). rewrite <- Zlt_Qlt.
    cbn [List.length]. lia. }
  unfold unit_score, Spec.mean. split.
  - apply Qle_shift_div_l; [ exact Hn | ]. lra.
  - apply Qle_shift_div_r; [ exact Hn | ]. lra.
Qed.

(** ** The entry point *)

Lemma serializable_score_values (field_scores : list (string * Q)) :
  serializable (score_values field_scores) = true.
Proof.
  unfold score_values. simpl.
  induction field_scores as [ | [k x] fs IH ]; simpl;
    [ reflexivity | exact IH ].
Qed.

Section MetricFacts.
Variable loads : string -> decoded.
Variable DeepDiff : value -> value -> bool -> DiffResult.

(** The path taken when the answer yields no object. *)
Lemma metric_extraction_failure (output output_true expected : value) :
  parse_json_from_response loads output_true = Ok expected ->
  parse_json_from_response loads output = Ok VNone ->
  llm_structured_output_metric loads DeepDiff output output_true
  = (text <- json_dumps (extraction_failure expected) (Some 2) ;;
     Ok (0%Q, text, output)).
Proof.
  intros He Hx. unfold llm_structured_output_metric.
  rewrite He. cbn [bind]. rewrite Hx. reflexivity.
Qed.

(** The path taken when both sides yield an object. *)
Lemma metric_scoring (output output_true expected extracted : value) :
  parse_json_from_response loads output_true = Ok expected ->
  parse_json_from_response loads output = Ok extracted ->
  is_None extracted = false ->
  llm_structured_output_metric loads DeepDiff output output_true
  = (overall_score <-
       float_truediv
         (py_fsum (values (calculate_field_level_scores
                             DeepDiff expected extracted)))
         (len (calculate_field_level_scores DeepDiff expected extracted)) ;;
     text <-
       json_dumps
         (VDict [("score", VFloat overall_score);
                 ("extracted_data", extracted);
                 ("expected_data", expected);
                 ("field_scores",
                  score_values (calculate_field_level_scores
                                  DeepDiff expected extracted))])
         (Some 2) ;;
     Ok (overall_score, text, output)).
Proof.
  intros He Hx Hnone. unfold llm_structured_output_metric.
  rewrite He. cbn [bind]. rewrite Hx. cbn [bind]. rewrite Hnone. reflexivity.
Qed.

Lemma overall_score_mean (scores : list (string * Q)) (overall : Q) :
  float_truediv (py_fsum (values scores)) (len scores) = Ok overall ->
  scores <> [] /\ (overall == Spec.mean (values scores))%Q.
Proof.
  unfold float_truediv, len. destruct scores as [ | item scores ].
  - simpl. discriminate.
  - destruct (Z.of_nat (List.length (item :: scores)) =? 0) eqn:E;
      [ discriminate | ].
    intros H. injection H as <-. split; [ discriminate | ].
    unfold Spec.mean, values. rewrite length_map, py_fsum_total. reflexivity.
Qed.

Lemma float_truediv_nonempty (scores : list (string * Q)) :
  scores <> [] ->
  exists overall,
    float_truediv (py_fsum (values scores)) (len scores) = Ok overall.
Proof.
  intros Hne. unfold float_truediv, len.
  destruct scores as [ | item scores ]; [ congruence | ].
  cbn [List.length]. rewrite Nat2Z.inj_succ.
  destruct (Z.succ (Z.of_nat (List.length scores)) =? 0) eqn:E.
  - apply Z.eqb_eq in E. lia.
  - eexists. reflexivity.
Qed.

Lemma metric_score_unit (output output_true : value)
    (score : Q) (text : json_text) (echoed : value) :
  llm_structured_output_metric loads DeepDiff output output_true
  = Ok (score, text, echoed) ->
  unit_score score.
Proof.
  assert (U0 : unit_score 0) by (split; discriminate).
  unfold llm_structured_output_metric.
  destruct (parse_json_from_response loads output_true)
    as [ expected | [ msg | | | | ] ] eqn:He; try discriminate.
  - destruct (parse_json_from_response loads output)
      as [ extracted | e ] eqn:Hx; cbn [bind]; [ | discriminate ].
    destruct (is_None extracted) eqn:Hnone.
    + destruct (json_dumps _ (Some 2)); cbn [bind]; [ | discriminate ].
      intros H. injection H as <- _ _. exact U0.
    + destruct (float_truediv _ _) as [ overall | e ] eqn:Hdiv;
        cbn [bind]; [ | discriminate ].
      destruct (json_dumps _ (Some 2)); cbn [bind]; [ | discriminate ].
      intros H. injection H as <- _ _.
      apply overall_score_mean in Hdiv. destruct Hdiv as [Hne Hmean].
      destruct (mean_unit
                  (values (calculate_field_level_scores
                             DeepDiff expected extracted)))
        as [H0 H1].
      * unfold values. apply Forall_map.
        apply (field_scores_unit DeepDiff expected extracted).
      * unfold values. intros Hnil. apply map_eq_nil in Hnil. contradiction.
      * unfold unit_score. rewrite Hmean. split; assumption.
  - destruct (slice_to 500 output_true); cbn [bind]; [ | discriminate ].
    destruct (json_dumps _ None); cbn [bind]; [ | discriminate ].
    intros H. injection H as <- _ _. exact U0.
Qed.
End MetricFacts.

Lemma lookup_Forall {A : Type} (P : A -> Prop) (d : list (string * A))
    (k : string) (v : A) :
  Forall (fun item => P (snd item)) d -> lookup k d = Some v -> P v.
Proof.
  induction 1 as [ | [k0 v0] d H0 _ IH ]; simpl; [ discriminate | ].
  destruct (String.eqb k k0); [ | exact IH ].
  intros H. injection H as <-. exact H0.
Qed.

Lemma no_fields_no_scores (DeepDiff : value -> value -> bool -> DiffResult)
    (expected extracted : value) :
  is_dict expected = false \/ is_dict extracted = false
  \/ (expected = VDict [] /\ extracted = VDict []) ->
  calculate_field_level_scores DeepDiff expected extracted = [].
Proof.
  intros [ H | [ H | [-> ->] ] ].
  - destruct expected; try reflexivity. discriminate.
  - destruct extracted; try discriminate; destruct expected; reflexivity.
  - reflexivity.
Qed.

(** C3: every score lies in the closed interval from 0 to 1: each result
    of [calculate_similarity_score], each value of the field score map,
    and the overall score whenever [llm_structured_output_metric]
    returns. *)
Theorem scores_in_unit_interval
    (loads : string -> decoded)
    (DeepDiff : value -> value -> bool -> DiffResult) :
  (forall expected extracted diff,
      unit_score (calculate_similarity_score expected extracted diff))
  /\ (forall expected extracted key score,
         lookup key (calculate_field_level_scores DeepDiff expected extracted)
         = Some score ->
         unit_score score)
  /\ (forall output output_true score text echoed,
         llm_structured_output_metric loads DeepDiff output output_true
         = Ok (score, text, echoed) ->
         unit_score score).
Proof.
  split; [ | split ].
  - apply calculate_similarity_score_unit.
  - intros expected extracted key score.
    apply (lookup_Forall unit_score). apply field_scores_unit.
  - apply metric_score_unit.
Qed.

(** Scenario B returns one half, a score of the interval. *)
Lemma scores_in_unit_interval_witness :
  (exists text echoed,
      llm_structured_output_metric Ref.loads Ref.DeepDiff
        (VStr (Scenario.alice "31")) (VStr (Scenario.alice "30"))
      = Ok (1 # 2, text, echoed))
  /\ unit_score (1 # 2).
Proof.
  split.
  - eexists. eexists. vm_compute. reflexivity.
  - eapply (proj2 (proj2 (scores_in_unit_interval Ref.loads Ref.DeepDiff))
              (VStr (Scenario.alice "31")) (VStr (Scenario.alice "30"))).
    vm_compute. reflexivity.
Defined.

(** C2: the entry point lets an exception escape.  When both sides yield
    an object and there is no top-level field to score (a side is not a
    dict, or both dicts are empty) the mean divides by the length of an
    empty map and [ZeroDivisionError] leaves the function. *)
Theorem metric_divides_by_zero
    (loads : string -> decoded)
    (DeepDiff : value -> value -> bool -> DiffResult)
    (output output_true expected extracted : value) :
  parse_json_from_response loads output_true = Ok expected ->
  parse_json_from_response loads output = Ok extracted ->
  is_None extracted = false ->
  is_dict expected = false \/ is_dict extracted = false
  \/ (expected = VDict [] /\ extracted = VDict []) ->
  llm_structured_output_metric loads DeepDiff output output_true
  = Raise ZeroDivisionError.
Proof.
  intros He Hx Hnone Hfields.
  rewrite (metric_scoring loads DeepDiff output output_true expected extracted)
    by assumption.
  rewrite no_fields_no_scores by exact Hfields. reflexivity.
Qed.

(** Two empty objects, and two equal arrays. *)
Lemma metric_divides_by_zero_witness :
  llm_structured_output_metric Ref.loads Ref.DeepDiff (VStr "{}") (VStr "{}")
  = Raise ZeroDivisionError
  /\ llm_structured_output_metric Ref.loads Ref.DeepDiff
       (VStr "[1, 2]") (VStr "[1, 2]")
     = Raise ZeroDivisionError.
Proof.
  split.
  - apply (metric_divides_by_zero Ref.loads Ref.DeepDiff
             (VStr "{}") (VStr "{}") (VDict []) (VDict []));
      [ reflexivity | reflexivity | reflexivity | ].
    right. right. split; reflexivity.
  - apply (metric_divides_by_zero Ref.loads Ref.DeepDiff
             (VStr "[1, 2]") (VStr "[1, 2]")
             (VList [VInt 1; VInt 2]) (VList [VInt 1; VInt 2]));
      [ reflexivity | reflexivity | reflexivity | ].
    left. reflexivity.
Defined.

(** C7: the handler for a ground truth that cannot be parsed is never
    reached.  [parse_json_from_response] catches every [JSONDecodeError]
    and returns [None], so a ground truth no attempt can decode reaches the
    scoring of the answer as expected data [None]: the metric reports an
    extraction failure of the answer when the answer yields nothing, and
    raises [ZeroDivisionError] when the answer yields an object.  The
    diagnostic with the error message and the first 500 characters of the
    ground truth is not produced. *)
Theorem ground_truth_failure_not_reported
    (loads : string -> decoded)
    (DeepDiff : value -> value -> bool -> DiffResult)
    (output : value) (ground_truth : string) :
  undecodable loads ground_truth ->
  attempt_fails loads (search_braces ground_truth) ->
  attempt_fails loads (search_code_block ground_truth) ->
  (parse_json_from_response loads output = Ok VNone ->
   llm_structured_output_metric loads DeepDiff output (VStr ground_truth)
   = Ok (0%Q, Dumped (extraction_failure VNone) (Some 2), output))
  /\ (forall extracted,
         parse_json_from_response loads output = Ok extracted ->
         is_None extracted = false ->
         llm_structured_output_metric loads DeepDiff output (VStr ground_truth)
         = Raise ZeroDivisionError)
  /\ (forall response msg,
         parse_json_from_response loads response
         <> Raise (JSONDecodeError msg)).
Proof.
  intros Hs Hm Hp.
  pose proof (parse_nothing loads ground_truth Hs Hm Hp) as He.
  split; [ | split ].
  - intros Hx.
    rewrite (metric_extraction_failure loads DeepDiff output
               (VStr ground_truth) VNone) by assumption.
    reflexivity.
  - intros extracted Hx Hnone.
    rewrite (metric_scoring loads DeepDiff output (VStr ground_truth)
               VNone extracted) by assumption.
    rewrite no_fields_no_scores by (left; reflexivity). reflexivity.
  - apply parse_never_JSONDecodeError.
Qed.

(** A ground truth of plain prose, against an answer of plain prose and
    against a well-formed answer. *)
Lemma ground_truth_failure_not_reported_witness :
  llm_structured_output_metric Ref.loads Ref.DeepDiff
    (VStr Scenario.not_json) (VStr Scenario.not_json)
  = Ok (0%Q, Dumped (extraction_failure VNone) (Some 2),
        VStr Scenario.not_json)
  /\ llm_structured_output_metric Ref.loads Ref.DeepDiff
       (VStr Scenario.x1) (VStr Scenario.not_json)
     = Raise ZeroDivisionError.
Proof.
  assert (Hs : undecodable Ref.loads Scenario.not_json).
  { exists "Expecting value"%string. vm_compute. reflexivity. }
  split.
  - apply (proj1 (ground_truth_failure_not_reported Ref.loads Ref.DeepDiff
                    (VStr Scenario.not_json) Scenario.not_json Hs I I)).
    vm_compute. reflexivity.
  - apply (proj1 (proj2 (ground_truth_failure_not_reported
                           Ref.loads Ref.DeepDiff
                           (VStr Scenario.x1) Scenario.not_json Hs I I))
             Scenario.x1_data).
    + vm_compute. reflexivity.
    + reflexivity.
Defined.

(** C8: when the ground truth yields expected data, a JSON-like tree, and
    the answer yields nothing, the metric returns the score 0, the
    serialised observation that holds the score, the extraction-failure
    message and the expected data, and the answer itself; so it does in
    scenario E. *)
Theorem extraction_failure_reported
    (loads : string -> decoded)
    (DeepDiff : value -> value -> bool -> DiffResult) :
  (forall output output_true expected,
      parse_json_from_response loads output_true = Ok expected ->
      parse_json_from_response loads output = Ok VNone ->
      serializable expected = true ->
      llm_structured_output_metric loads DeepDiff output output_true
      = Ok (0%Q, Dumped (extraction_failure expected) (Some 2), output))
  /\ (loads Scenario.x1 = Decoded Scenario.x1_data ->
      undecodable loads Scenario.not_json ->
      llm_structured_output_metric loads DeepDiff
        (VStr Scenario.not_json) (VStr Scenario.x1)
      = Ok (0%Q, Dumped (extraction_failure Scenario.x1_data) (Some 2),
            VStr Scenario.not_json)).
Proof.
  assert (General : forall output output_true expected,
             parse_json_from_response loads output_true = Ok expected ->
             parse_json_from_response loads output = Ok VNone ->
             serializable expected = true ->
             llm_structured_output_metric loads DeepDiff output output_true
             = Ok (0%Q, Dumped (extraction_failure expected) (Some 2), output)).
  { intros output output_true expected He Hx Hser.
    rewrite (metric_extraction_failure loads DeepDiff
               output output_true expected)
      by assumption.
    unfold json_dumps, extraction_failure. cbn [serializable forallb snd].
    rewrite Hser. reflexivity. }
  split; [ exact General | ].
  intros Hx1 Hnot. apply General.
  - apply parse_whole. exact Hx1.
  - apply parse_nothing; [ exact Hnot | exact I | exact I ].
  - reflexivity.
Qed.

(** Scenario E on the reference reader. *)
Lemma extraction_failure_reported_witness :
  llm_structured_output_metric Ref.loads Ref.DeepDiff
    (VStr Scenario.not_json) (VStr Scenario.x1)
  = Ok (0%Q, Dumped (extraction_failure Scenario.x1_data) (Some 2),
        VStr Scenario.not_json).
Proof.
  apply (proj2 (extraction_failure_reported Ref.loads Ref.DeepDiff)).
  - vm_compute. reflexivity.
  - exists "Expecting value"%string. vm_compute. reflexivity.
Defined.

Lemma metric_returns_mean
    (loads : string -> decoded)
    (DeepDiff : value -> value -> bool -> DiffResult)
    (output output_true expected extracted : value) :
  parse_json_from_response loads output_true = Ok expected ->
  parse_json_from_response loads output = Ok extracted ->
  is_None extracted = false ->
  calculate_field_level_scores DeepDiff expected extracted <> [] ->
  serializable expected = true -> serializable extracted = true ->
  exists score text,
    llm_structured_output_metric loads DeepDiff output output_true
    = Ok (score, text, output)
    /\ (score
        == Spec.mean
             (values (calculate_field_level_scores
                        DeepDiff expected extracted)))%Q.
Proof.
  intros He Hx Hnone Hne Hse Hsx.
  rewrite (metric_scoring loads DeepDiff output output_true expected extracted)
    by assumption.
  destruct (float_truediv_nonempty _ Hne) as [overall Hdiv].
  rewrite Hdiv. cbn [bind].
  unfold json_dumps. cbn [serializable forallb snd].
  rewrite Hse, Hsx, serializable_score_values. cbn [andb bind].
  eexists. eexists. split; [ reflexivity | ].
  apply overall_score_mean in Hdiv. tauto.
Qed.

(** C5: when both sides yield an object, the overall score the metric
    returns is the arithmetic mean of the field scores; it comes with the
    serialised observation that holds this score, the two objects and the
    field score map, and with the answer itself.  The metric does return
    when there is a field and both objects are JSON-like trees.  In
    scenario B, the ages 30 and 31 under the same name, it returns one
    half with the field scores 1 for [name] and 0 for [age] in the
    observation. *)
Theorem overall_score_is_mean
    (loads : string -> decoded)
    (DeepDiff : value -> value -> bool -> DiffResult) :
  (forall output output_true expected extracted,
      parse_json_from_response loads output_true = Ok expected ->
      parse_json_from_response loads output = Ok extracted ->
      is_None extracted = false ->
      (forall score text echoed,
          llm_structured_output_metric loads DeepDiff output output_true
          = Ok (score, text, echoed) ->
          (score
           == Spec.mean
                (values (calculate_field_level_scores
                           DeepDiff expected extracted)))%Q
          /\ text
             = Dumped
                 (scored_observation score extracted expected
                    (score_items (calculate_field_level_scores
                                    DeepDiff expected extracted)))
                 (Some 2)
          /\ echoed = output)
      /\ (calculate_field_level_scores DeepDiff expected extracted <> [] ->
          serializable expected = true -> serializable extracted = true ->
          exists score,
            llm_structured_output_metric loads DeepDiff output output_true
            = Ok (score,
                  Dumped
                    (scored_observation score extracted expected
                       (score_items (calculate_field_level_scores
                                       DeepDiff expected extracted)))
                    (Some 2),
                  output)
            /\ (score
                == Spec.mean
                     (values (calculate_field_level_scores
                                DeepDiff expected extracted)))%Q))
  /\ (forall path evidence,
         loads (Scenario.alice "30") = Decoded (Scenario.alice_data 30) ->
         loads (Scenario.alice "31") = Decoded (Scenario.alice_data 31) ->
         diff_truthy (DeepDiff (VStr "Alice") (VStr "Alice") true) = false ->
         DeepDiff (VInt 30) (VInt 31) true
         = mkDiff (Some [(path, evidence)]) None None None None None [] ->
         let field_scores :=
           calculate_field_level_scores DeepDiff
             (Scenario.alice_data 30) (Scenario.alice_data 31) in
         (exists field_items,
             llm_structured_output_metric loads DeepDiff
               (VStr (Scenario.alice "31")) (VStr (Scenario.alice "30"))
             = Ok (1 # 2,
                   Dumped
                     (scored_observation (1 # 2)
                        (Scenario.alice_data 31) (Scenario.alice_data 30)
                        field_items)
                     (Some 2),
                   VStr (Scenario.alice "31"))
             /\ Permutation field_items
                  [("name"%string, VFloat 1); ("age"%string, VFloat 0)])
         /\ lookup "name" field_scores = Some 1%Q
         /\ lookup "age" field_scores = Some 0%Q
         /\ (forall key, In key (keys field_scores)
                         <-> key = "name"%string \/ key = "age"%string)).
Proof.
  split.
  - intros output output_true expected extracted He Hx Hnone. split.
    + intros score text echoed.
      rewrite (metric_scoring loads DeepDiff output output_true
                 expected extracted) by assumption.
      destruct (float_truediv _ _) as [ overall | e ] eqn:Hdiv;
        cbn [bind]; [ | discriminate ].
      destruct (json_dumps _ (Some 2)) as [ dumped | e ] eqn:Hdump;
        cbn [bind]; [ | discriminate ].
      intros H. injection H as <- <- <-.
      apply overall_score_mean in Hdiv.
      unfold json_dumps in Hdump.
      destruct (serializable _); [ | discriminate Hdump ].
      injection Hdump as <-.
      split; [ tauto | split; reflexivity ].
    + intros Hne Hse Hsx.
      rewrite (metric_scoring loads DeepDiff output output_true
                 expected extracted) by assumption.
      destruct (float_truediv_nonempty _ Hne) as [overall Hdiv].
      rewrite Hdiv. cbn [bind].
      unfold json_dumps. cbn [serializable forallb snd].
      rewrite Hse, Hsx, serializable_score_values. cbn [andb bind].
      exists overall. split; [ reflexivity | ].
      apply overall_score_mean in Hdiv. tauto.
  - intros path evidence H30 H31 Hname Hage field_scores.
    assert (Hscores :
              field_scores = [("name"%string, 1%Q); ("age"%string, 0%Q)]).
    { subst field_scores. unfold Scenario.alice_data.
      rewrite calculate_field_level_scores_loop.
      change (key_union _ _) with ["name"%string; "age"%string].
      cbn [fold_left dict_set]. cbn [String.eqb Ascii.eqb Bool.eqb].
      unfold field_score. cbn [dict_get lookup String.eqb Ascii.eqb Bool.eqb].
      unfold calculate_similarity_score at 1. cbn [is_None andb orb].
      rewrite Hname. cbn [negb].
      rewrite Hage. reflexivity. }
    split; [ | rewrite Hscores; repeat split ].
    + exists [("name"%string, VFloat 1); ("age"%string, VFloat 0)].
      split; [ | apply Permutation_refl ].
      rewrite (metric_scoring loads DeepDiff
                 (VStr (Scenario.alice "31")) (VStr (Scenario.alice "30"))
                 (Scenario.alice_data 30) (Scenario.alice_data 31));
        [ | apply parse_whole; exact H30 | apply parse_whole; exact H31
          | reflexivity ].
      fold field_scores. rewrite Hscores. reflexivity.
    + simpl. intros [ <- | [ <- | [] ] ]; tauto.
    + simpl. intros [ -> | -> ]; tauto.
Qed.

(** Scenario B on the reference reader and differ. *)
Lemma overall_score_is_mean_witness :
  (exists field_items,
      llm_structured_output_metric Ref.loads Ref.DeepDiff
        (VStr (Scenario.alice "31")) (VStr (Scenario.alice "30"))
      = Ok (1 # 2,
            Dumped
              (scored_observation (1 # 2)
                 (Scenario.alice_data 31) (Scenario.alice_data 30)
                 field_items)
              (Some 2),
            VStr (Scenario.alice "31"))
      /\ Permutation field_items
           [("name"%string, VFloat 1); ("age"%string, VFloat 0)])
  /\ lookup "name"
       (calculate_field_level_scores Ref.DeepDiff
          (Scenario.alice_data 30) (Scenario.alice_data 31))
     = Some 1%Q
  /\ lookup "age"
       (calculate_field_level_scores Ref.DeepDiff
          (Scenario.alice_data 30) (Scenario.alice_data 31))
     = Some 0%Q.
Proof.
  destruct (proj2 (overall_score_is_mean Ref.loads Ref.DeepDiff)
              "root"%string
              (VDict [("new_value"%string, VInt 31);
                      ("old_value"%string, VInt 30)]))
    as (Hrun & Hname & Hage & _).
  - vm_compute. reflexivity.
  - vm_compute. reflexivity.
  - reflexivity.
  - reflexivity.
  - split; [ exact Hrun | split; [ exact Hname | exact Hage ] ].
Defined.

(** * Further properties of the module *)

(** ** Counting values *)

Lemma total_zero (xs : list Z) :
  Forall (fun x => 0 <= x) xs ->
  (fold_right Z.add 0 xs = 0 <-> Forall (fun x => x = 0) xs).
Proof.
  induction 1 as [ | x xs Hx Hxs IH ]; simpl.
  - split; [ constructor | reflexivity ].
  - assert (0 <= fold_right Z.add 0 xs).
    { rewrite <- py_sum_total. apply py_sum_nonneg. exact Hxs. }
    split.
    + intros H0. constructor; [ lia | apply IH; lia ].
    + intros H0. inversion H0 as [ | ? ? Hx0 Hrest ]; subst.
      apply IH in Hrest. lia.
Qed.

(** X1: [count_total_values] is never negative, and a container counts 0
    exactly when each of its elements (each of its values, for a dict)
    counts 0: an empty container, or one that holds only such
    containers. *)
Theorem count_total_values_zero :
  (forall v, 0 <= count_total_values v)
  /\ (forall items,
        count_total_values (VList items) = 0
        <-> Forall (fun item => count_total_values item = 0) items)
  /\ (forall d,
        count_total_values (VDict d) = 0
        <-> Forall (fun item => count_total_values (snd item) = 0) d).
Proof.
  split; [ apply count_total_values_nonneg | split ].
  - intros items. cbn [count_total_values]. rewrite py_sum_total.
    rewrite total_zero.
    + rewrite Forall_map. reflexivity.
    + apply Forall_map. apply Forall_forall. intros v _.
      apply count_total_values_nonneg.
  - intros d. cbn [count_total_values]. rewrite py_sum_total.
    rewrite total_zero.
    + rewrite Forall_map. reflexivity.
    + apply Forall_map. apply Forall_forall. intros item _.
      apply count_total_values_nonneg.
Qed.

(** A list that holds an empty list and an empty dict. *)
Lemma count_total_values_zero_witness :
  count_total_values (VList [VList []; VDict []]) = 0.
Proof.
  apply (proj1 (proj2 count_total_values_zero)).
  repeat constructor.
Defined.

Lemma total_Permutation (xs ys : list Z) :
  Permutation xs ys -> fold_right Z.add 0 xs = fold_right Z.add 0 ys.
Proof. induction 1; simpl; lia. Qed.

Lemma total_app (xs ys : list Z) :
  fold_right Z.add 0 (xs ++ ys)
  = fold_right Z.add 0 xs + fold_right Z.add 0 ys.
Proof. induction xs as [ | x xs IH ]; simpl; lia. Qed.

(** X2: the count of a list is additive over concatenation and does not
    depend on the order of the elements; the count of a dict does not
    depend on the order of its items nor on its keys. *)
Theorem count_total_values_order :
  (forall items items',
      count_total_values (VList (items ++ items'))
      = count_total_values (VList items) + count_total_values (VList items'))
  /\ (forall items items',
        Permutation items items' ->
        count_total_values (VList items) = count_total_values (VList items'))
  /\ (forall d d',
        Permutation (values d) (values d') ->
        count_total_values (VDict d) = count_total_values (VDict d')).
Proof.
  split; [ | split ].
  - intros items items'. cbn [count_total_values].
    rewrite !py_sum_total, map_app. apply total_app.
  - intros items items' H. cbn [count_total_values]. rewrite !py_sum_total.
    apply total_Permutation. apply Permutation_map. exact H.
  - intros d d' H. cbn [count_total_values]. rewrite !py_sum_total.
    rewrite <- !(map_map snd count_total_values).
    apply total_Permutation. apply Permutation_map. exact H.
Qed.

(** A list and its reversal; two dicts with the same values under other
    keys. *)
Lemma count_total_values_order_witness :
  count_total_values (VList [VInt 1; VList [VInt 2; VInt 3]])
  = count_total_values (VList [VList [VInt 2; VInt 3]; VInt 1])
  /\ count_total_values (VDict [("a", VInt 1); ("b", VList [])])
     = count_total_values (VDict [("y", VList []); ("x", VInt 1)]).
Proof.
  split.
  - apply (proj1 (proj2 count_total_values_order)). apply perm_swap.
  - apply (proj2 (proj2 count_total_values_order)). apply perm_swap.
Defined.

(** ** The clamped score *)

Lemma clamped_complement_cases (count total : Z) :
  0 <= count -> 0 < total ->
  ((py_max 0 (1 - int_truediv count total) == 1)%Q <-> count = 0)
  /\ ((py_max 0 (1 - int_truediv count total) == 0)%Q <-> total <= count).
Proof.
  intros Hc Ht.
  assert (Hq : (int_truediv count total == count # Z.to_pos total)%Q)
    by (apply int_truediv_Qmake; exact Ht).
  assert (Hone : (count # Z.to_pos total == 0)%Q <-> count = 0).
  { unfold Qeq. simpl. lia. }
  assert (Hle : (1 <= count # Z.to_pos total)%Q <-> total <= count).
  { unfold Qle. simpl. rewrite Z2Pos.id by exact Ht. lia. }
  unfold py_max.
  destruct (Qle_bool (1 - int_truediv count total) 0) eqn:E.
  - apply Qle_bool_iff in E. rewrite Hq in E.
    assert (Hge : (1 <= count # Z.to_pos total)%Q) by lra.
    apply Hle in Hge. split; split; intros H.
    + discriminate H.
    + lia.
    + exact Hge.
    + reflexivity.
  - assert (Hlt : ~ (1 - int_truediv count total <= 0)%Q).
    { intros H. apply Qle_bool_iff in H. congruence. }
    rewrite Hq in Hlt. rewrite Hq. split; split; intros H.
    + apply Hone. lra.
    + apply Hone in H. lra.
    + exfalso. apply Hlt. lra.
    + exfalso. apply Hlt. apply Hle in H. lra.
Qed.

(** X3: once both objects are present and the diff is not empty, the score
    is 1 exactly when the penalty count is zero, and it is 0 exactly when
    the penalty count is positive and at least the number of expected
    values: the clamp hides by how much the penalties exceed that
    number. *)
Theorem score_extremes (expected extracted : value) (diff : DiffResult) :
  is_None expected = false -> is_None extracted = false ->
  diff_truthy diff = true ->
  ((calculate_similarity_score expected extracted diff == 1)%Q
   <-> Spec.diff_count diff = 0)
  /\ ((calculate_similarity_score expected extracted diff == 0)%Q
      <-> 0 < Spec.diff_count diff
          /\ count_total_values expected <= Spec.diff_count diff).
Proof.
  intros He Hx Hd.
  rewrite calculate_similarity_score_counted by assumption.
  pose proof (diff_count_nonneg diff) as Hc.
  pose proof (count_total_values_nonneg expected) as Ht.
  destruct (count_total_values expected =? 0) eqn:E.
  - apply Z.eqb_eq in E.
    destruct (Spec.diff_count diff =? 0) eqn:E'.
    + apply Z.eqb_eq in E'. split; split; intros H;
        try reflexivity; try lia. discriminate H.
    + apply Z.eqb_neq in E'. split; split; intros H;
        try reflexivity; try lia. discriminate H.
  - apply Z.eqb_neq in E.
    destruct (clamped_complement_cases (Spec.diff_count diff)
                (count_total_values expected)) as [H1 H0]; try lia.
    split; [ exact H1 | ]. rewrite H0. lia.
Qed.

(** Four expected values: one change keeps the score below 1, five
    removed values clamp it to 0. *)
Lemma score_extremes_witness :
  ~ (calculate_similarity_score
       (VList [VInt 1; VInt 2; VInt 3; VInt 4]) (VList [])
       (mkDiff (Some [("root[0]", VInt 9)]) None None None None None [])
     == 1)%Q
  /\ (calculate_similarity_score
        (VList [VInt 1; VInt 2; VInt 3; VInt 4]) (VList [])
        (mkDiff None None None None
           (Some [("root[0]", VList [VInt 1; VInt 2; VInt 3]);
                  ("root[1]", VList [VInt 4; VInt 5])]) None [])
      == 0)%Q.
Proof.
  split.
  - intros H.
    apply (proj1 (score_extremes
                    (VList [VInt 1; VInt 2; VInt 3; VInt 4]) (VList [])
                    (mkDiff (Some [("root[0]", VInt 9)])
                       None None None None None [])
                    eq_refl eq_refl eq_refl)) in H.
    discriminate H.
  - apply (proj2 (score_extremes
                    (VList [VInt 1; VInt 2; VInt 3; VInt 4]) (VList [])
                    (mkDiff None None None None
                       (Some [("root[0]", VList [VInt 1; VInt 2; VInt 3]);
                              ("root[1]", VList [VInt 4; VInt 5])]) None [])
                    eq_refl eq_refl eq_refl)).
    vm_compute. split; [ reflexivity | discriminate ].
Defined.

Lemma diff_empty_count (diff : DiffResult) :
  diff_truthy diff = false -> Spec.diff_count diff = 0.
Proof.
  destruct diff as [ [?|] [?|] [?|] [?|] [?|] [?|] oc ];
    try discriminate. reflexivity.
Qed.

Lemma score_without_penalty (expected extracted : value) (diff : DiffResult) :
  is_None expected = false -> is_None extracted = false ->
  diff_truthy diff = true -> Spec.diff_count diff = 0 ->
  (calculate_similarity_score expected extracted diff == 1)%Q.
Proof.
  intros He Hx Hd Hc.
  rewrite calculate_similarity_score_counted by assumption. rewrite Hc.
  pose proof (count_total_values_nonneg expected) as Ht.
  destruct (count_total_values expected =? 0) eqn:E; [ reflexivity | ].
  apply Z.eqb_neq in E.
  apply (clamped_complement_cases 0 (count_total_values expected)); lia.
Qed.

Lemma clamped_complement_antitone (count count' total : Z) :
  0 < total -> count <= count' ->
  (py_max 0 (1 - int_truediv count' total)
   <= py_max 0 (1 - int_truediv count total))%Q.
Proof.
  intros Ht Hc.
  assert (Hq : (int_truediv count total <= int_truediv count' total)%Q).
  { rewrite !int_truediv_Qmake by exact Ht. unfold Qle. simpl.
    apply Z.mul_le_mono_nonneg_r; lia. }
  rewrite !py_max_Qmax. apply Q.max_le_compat_l. lra.
Qed.

(** X4: for a given pair of present objects, a report with at most as many
    penalties never scores lower: the score is antitone in the penalty
    count. *)
Theorem score_antitone (expected extracted : value)
    (diff diff' : DiffResult) :
  is_None expected = false -> is_None extracted = false ->
  Spec.diff_count diff <= Spec.diff_count diff' ->
  (calculate_similarity_score expected extracted diff'
   <= calculate_similarity_score expected extracted diff)%Q.
Proof.
  intros He Hx Hc.
  pose proof (calculate_similarity_score_unit expected extracted diff')
    as [_ Hle'].
  pose proof (diff_count_nonneg diff) as H0.
  pose proof (count_total_values_nonneg expected) as Ht.
  destruct (diff_truthy diff) eqn:Hd.
  2:{ unfold calculate_similarity_score at 2. rewrite He, Hx, Hd. exact Hle'. }
  destruct (diff_truthy diff') eqn:Hd'.
  2:{ apply diff_empty_count in Hd'.
      assert (H1 : (calculate_similarity_score expected extracted diff == 1)%Q).
      { apply score_without_penalty; try assumption. lia. }
      rewrite H1. exact Hle'. }
  rewrite !calculate_similarity_score_counted by assumption.
  destruct (count_total_values expected =? 0) eqn:E.
  - destruct (Spec.diff_count diff =? 0) eqn:E1;
      destruct (Spec.diff_count diff' =? 0) eqn:E2;
      try discriminate; try apply Qle_refl.
    apply Z.eqb_eq in E2. apply Z.eqb_neq in E1. lia.
  - apply Z.eqb_neq in E. apply clamped_complement_antitone; lia.
Qed.

(** One change against two, out of four expected values. *)
Lemma score_antitone_witness :
  (calculate_similarity_score
     (VList [VInt 1; VInt 2; VInt 3; VInt 4]) (VList [])
     (mkDiff (Some [("root[0]", VInt 9); ("root[1]", VInt 8)])
        None None None None None [])
   <= calculate_similarity_score
        (VList [VInt 1; VInt 2; VInt 3; VInt 4]) (VList [])
        (mkDiff (Some [("root[0]", VInt 9)]) None None None None None []))%Q.
Proof.
  apply score_antitone; [ reflexivity | reflexivity | ].
  vm_compute. discriminate.
Defined.

(** ** Field scores: edge cases *)

(** X5: a key whose value is [None] on one side and is [None] or missing
    on the other scores exactly 1, whatever the differ reports: a missing
    key reads as [None], and two [None] are a match. *)
Theorem null_key_scores_one
    (DeepDiff : value -> value -> bool -> DiffResult)
    (expected extracted : list (string * value)) (key : string) :
  In key (keys expected) \/ In key (keys extracted) ->
  dict_get expected key = VNone -> dict_get extracted key = VNone ->
  lookup key (calculate_field_level_scores DeepDiff
                (VDict expected) (VDict extracted))
  = Some 1%Q.
Proof.
  intros Hin He Hx.
  rewrite calculate_field_level_scores_lookup by exact Hin.
  unfold field_score. rewrite He, Hx. reflexivity.
Qed.

(** A null field the answer leaves out. *)
Lemma null_key_scores_one_witness :
  lookup "note"
    (calculate_field_level_scores Ref.DeepDiff
       (VDict [("x", VInt 1); ("note", VNone)]) (VDict [("x", VInt 1)]))
  = Some 1%Q.
Proof.
  apply null_key_scores_one.
  - left. simpl. tauto.
  - reflexivity.
  - reflexivity.
Defined.

Lemma field_scores_nil (DeepDiff : value -> value -> bool -> DiffResult)
    (expected extracted : value) :
  calculate_field_level_scores DeepDiff expected extracted = [] ->
  is_dict expected = false \/ is_dict extracted = false
  \/ (expected = VDict [] /\ extracted = VDict []).
Proof.
  destruct expected as [ | | | | | | e | ]; try (left; reflexivity).
  destruct extracted as [ | | | | | | x | ];
    try (right; left; reflexivity).
  intros Hnil. right. right.
  assert (Hkeys : forall key, ~ (In key (keys e) \/ In key (keys x))).
  { intros key Hin.
    pose proof (calculate_field_level_scores_lookup DeepDiff e x key Hin) as H.
    rewrite Hnil in H. discriminate H. }
  destruct e as [ | [k v] e ].
  - destruct x as [ | [k v] x ]; [ split; reflexivity | ].
    elim (Hkeys k). right. left. reflexivity.
  - elim (Hkeys k). left. left. reflexivity.
Qed.

(** X6: the field score map is empty exactly when a side is not a dict or
    both dicts are empty; a key on either side always gets a score. *)
Theorem field_scores_empty_iff
    (DeepDiff : value -> value -> bool -> DiffResult)
    (expected extracted : value) :
  calculate_field_level_scores DeepDiff expected extracted = []
  <-> is_dict expected = false \/ is_dict extracted = false
      \/ (expected = VDict [] /\ extracted = VDict []).
Proof.
  split; [ apply field_scores_nil | apply no_fields_no_scores ].
Qed.

(** Two empty objects, and a ground truth that is a list. *)
Lemma field_scores_empty_iff_witness :
  calculate_field_level_scores Ref.DeepDiff (VDict []) (VDict []) = []
  /\ calculate_field_level_scores Ref.DeepDiff
       (VList [VInt 1]) (VDict [("x", VInt 1)])
     = [].
Proof.
  split.
  - apply (proj2 (field_scores_empty_iff Ref.DeepDiff (VDict []) (VDict []))).
    right. right. split; reflexivity.
  - apply (proj2 (field_scores_empty_iff Ref.DeepDiff
                    (VList [VInt 1]) (VDict [("x"%string, VInt 1)]))).
    left. reflexivity.
Defined.

(** ** Field scores: a perfect match *)

Lemma loop_Forall_in {A : Type} (f : string -> A) (P : A -> Prop)
    (ks : list string) (d : list (string * A)) :
  (forall key, In key ks -> P (f key)) ->
  Forall (fun item => P (snd item)) d ->
  Forall (fun item => P (snd item))
         (fold_left (fun acc key => dict_set acc key (f key)) ks d).
Proof.
  revert d. induction ks as [ | k0 ks IH ]; intros d Hf Hd; simpl.
  - exact Hd.
  - apply IH.
    + intros key Hin. apply Hf. right. exact Hin.
    + apply Forall_dict_set; [ exact Hd | apply Hf; left; reflexivity ].
Qed.

Lemma total_of_ones (xs : list Q) :
  Forall (fun x => x = 1%Q) xs ->
  (fold_right Qplus 0 xs == inject_Z (Z.of_nat (List.length xs)))%Q.
Proof.
  induction 1 as [ | x xs -> _ IH ].
  - reflexivity.
  - cbn [fold_right List.length]. rewrite Nat2Z.inj_succ. unfold Z.succ.
    rewrite inject_Z_plus, IH. change (inject_Z 1) with 1%Q. ring.
Qed.

Lemma mean_of_ones (xs : list Q) :
  Forall (fun x => x = 1%Q) xs -> xs <> [] -> (Spec.mean xs == 1)%Q.
Proof.
  intros Hxs Hne. unfold Spec.mean. rewrite total_of_ones by exact Hxs.
  apply Qmult_inv_r.
  destruct xs as [ | x xs ]; [ congruence | ].
  cbn [List.length]. rewrite Nat2Z.inj_succ.
  intros H. unfold Qeq in H. simpl in H. lia.
Qed.

(** X7: when the answer yields the very dict the ground truth yields, that
    dict is not empty, and the differ reports nothing between each value
    and itself, every field scores 1 and the metric returns an overall
    score of 1. *)
Theorem identical_dicts_score_one
    (loads : string -> decoded)
    (DeepDiff : value -> value -> bool -> DiffResult)
    (output output_true : value) (d : list (string * value)) :
  parse_json_from_response loads output_true = Ok (VDict d) ->
  parse_json_from_response loads output = Ok (VDict d) ->
  d <> [] -> serializable (VDict d) = true ->
  (forall key, In key (keys d) ->
     diff_truthy (DeepDiff (dict_get d key) (dict_get d key) true) = false) ->
  (forall key, In key (keys d) ->
     lookup key (calculate_field_level_scores DeepDiff (VDict d) (VDict d))
     = Some 1%Q)
  /\ (exists score text,
         llm_structured_output_metric loads DeepDiff output output_true
         = Ok (score, text, output)
         /\ (score == 1)%Q).
Proof.
  intros He Hx Hne Hser Hdiff.
  assert (Hone : forall key,
             In key (keys d) -> field_score DeepDiff d d key = 1%Q).
  { intros key Hin. unfold field_score, calculate_similarity_score.
    rewrite (Hdiff key Hin). destruct (dict_get d key); reflexivity. }
  split.
  - intros key Hin.
    rewrite calculate_field_level_scores_lookup by (left; exact Hin).
    rewrite Hone by exact Hin. reflexivity.
  - assert (Hnil : calculate_field_level_scores DeepDiff (VDict d) (VDict d)
                   <> []).
    { intros Hnil. apply field_scores_nil in Hnil.
      destruct Hnil as [ H | [ H | [H _] ] ]; try discriminate H.
      injection H as H. contradiction. }
    destruct (metric_returns_mean loads DeepDiff output output_true
                (VDict d) (VDict d) He Hx eq_refl Hnil Hser Hser)
      as (score & text & Hrun & Hmean).
    exists score, text. split; [ exact Hrun | ].
    rewrite Hmean. apply mean_of_ones.
    + unfold values. apply Forall_map.
      rewrite calculate_field_level_scores_loop.
      apply (loop_Forall_in (field_score DeepDiff d d) (fun x => x = 1%Q)).
      * intros key Hin. apply Hone. apply key_union_In in Hin. tauto.
      * constructor.
    + unfold values. intros H. apply map_eq_nil in H. contradiction.
Qed.

(** Scenario A, with the reference reader and differ. *)
Lemma identical_dicts_score_one_witness :
  exists score text,
    llm_structured_output_metric Ref.loads Ref.DeepDiff
      (VStr (Scenario.alice "30")) (VStr (Scenario.alice "30"))
    = Ok (score, text, VStr (Scenario.alice "30"))
    /\ (score == 1)%Q.
Proof.
  apply (identical_dicts_score_one Ref.loads Ref.DeepDiff
           (VStr (Scenario.alice "30")) (VStr (Scenario.alice "30"))
           [("name"%string, VStr "Alice"); ("age"%string, VInt 30)]).
  - vm_compute. reflexivity.
  - vm_compute. reflexivity.
  - discriminate.
  - reflexivity.
  - simpl. intros key [ <- | [ <- | [] ] ]; reflexivity.
Defined.

(** ** The whole-tree diff *)

Lemma fold_left_ext {A B : Type} (f g : A -> B -> A) (xs : list B) (a : A) :
  (forall acc x, f acc x = g acc x) -> fold_left f xs a = fold_left g xs a.
Proof.
  intros Hfg. revert a. induction xs as [ | x xs IH ]; intros a; simpl.
  - reflexivity.
  - rewrite Hfg. apply IH.
Qed.

(** X8: the metric only uses the differ with [ignore_order=True], on the
    pairs of values of one key: two differs that agree on those calls give
    the same result, whatever they report for the whole trees without
    [ignore_order]. *)
Theorem whole_tree_diff_unused
    (loads : string -> decoded)
    (DeepDiff DeepDiff' : value -> value -> bool -> DiffResult)
    (output output_true : value) :
  (forall t1 t2, DeepDiff t1 t2 true = DeepDiff' t1 t2 true) ->
  llm_structured_output_metric loads DeepDiff output output_true
  = llm_structured_output_metric loads DeepDiff' output output_true.
Proof.
  intros Hsame.
  assert (Hscores : forall expected extracted,
             calculate_field_level_scores DeepDiff expected extracted
             = calculate_field_level_scores DeepDiff' expected extracted).
  { intros expected extracted. unfold calculate_field_level_scores.
    destruct expected; try reflexivity. destruct extracted; try reflexivity.
    apply fold_left_ext. intros acc key. unfold score_key.
    rewrite Hsame. reflexivity. }
  unfold llm_structured_output_metric.
  destruct (parse_json_from_response loads output_true); [ | reflexivity ].
  cbn [bind].
  destruct (parse_json_from_response loads output); [ | reflexivity ].
  cbn [bind]. rewrite Hscores. reflexivity.
Qed.

(** A differ that reports a type change between any two whole trees. *)
Lemma whole_tree_diff_unused_witness :
  llm_structured_output_metric Ref.loads Ref.DeepDiff
    (VStr (Scenario.alice "31")) (VStr (Scenario.alice "30"))
  = llm_structured_output_metric Ref.loads
      (fun t1 t2 ignore_order =>
         if ignore_order then Ref.DeepDiff t1 t2 true
         else mkDiff None (Some [("root"%string, VNone)])
                None None None None [])
      (VStr (Scenario.alice "31")) (VStr (Scenario.alice "30")).
Proof.
  apply whole_tree_diff_unused. intros t1 t2. reflexivity.
Defined.

(** ** The order of the keys *)

Lemma lookup_Permutation {A : Type} (d d' : list (string * A)) (k : string) :
  NoDup (keys d) -> Permutation d d' -> lookup k d = lookup k d'.
Proof.
  intros Hd Hp. induction Hp as [ | [k0 v0] d d' Hp IH
                                  | [k1 v1] [k2 v2] d
                                  | d d' d'' Hp1 IH1 Hp2 IH2 ].
  - reflexivity.
  - simpl. destruct (String.eqb k k0); [ reflexivity | ].
    apply IH. inversion Hd. assumption.
  - simpl.
    destruct (String.eqb k k1) eqn:E1; destruct (String.eqb k k2) eqn:E2;
      try reflexivity.
    apply String.eqb_eq in E1. apply String.eqb_eq in E2. subst k1 k2.
    inversion Hd as [ | ? ? Hnotin _ ]. elim Hnotin. left. reflexivity.
  - rewrite IH1 by exact Hd. apply IH2.
    apply (Permutation_NoDup (l := keys d)); [ | exact Hd ].
    unfold keys. apply Permutation_map. exact Hp1.
Qed.

Lemma dict_set_fresh {A : Type} (d : list (string * A)) (k : string) (v : A) :
  ~ In k (keys d) -> dict_set d k v = (d ++ [(k, v)])%list.
Proof.
  unfold keys. induction d as [ | [k0 v0] d IH ]; simpl; intros Hk.
  - reflexivity.
  - destruct (String.eqb k k0) eqn:E.
    + apply String.eqb_eq in E. subst k0. tauto.
    + rewrite IH by tauto. reflexivity.
Qed.

Lemma loop_fresh {A : Type} (f : string -> A) (ks : list string)
    (d : list (string * A)) :
  NoDup ks -> (forall k, In k ks -> ~ In k (keys d)) ->
  fold_left (fun acc key => dict_set acc key (f key)) ks d
  = (d ++ map (fun key => (key, f key)) ks)%list.
Proof.
  revert d. induction ks as [ | k0 ks IH ]; intros d Hks Hd; simpl.
  - rewrite app_nil_r. reflexivity.
  - inversion Hks as [ | ? ? Hnotin Hrest ]; subst.
    rewrite dict_set_fresh by (apply Hd; left; reflexivity).
    rewrite IH.
    + rewrite <- app_assoc. reflexivity.
    + exact Hrest.
    + intros k Hin. unfold keys. rewrite map_app, in_app_iff. simpl.
      intros [ H | [ <- | [] ] ]; [ | contradiction ].
      apply (Hd k); [ right; exact Hin | exact H ].
Qed.

Lemma field_scores_items (DeepDiff : value -> value -> bool -> DiffResult)
    (expected extracted : list (string * value)) :
  calculate_field_level_scores DeepDiff (VDict expected) (VDict extracted)
  = map (fun key => (key, field_score DeepDiff expected extracted key))
        (key_union (keys expected) (keys extracted)).
Proof.
  rewrite calculate_field_level_scores_loop.
  rewrite loop_fresh.
  - reflexivity.
  - apply NoDup_nodup.
  - intros k _ [].
Qed.

(** X9: on dicts without repeated keys, the field score map does not
    depend on the order in which the two dicts list their items: every key
    gets the same score, and the items of the map are the same up to their
    order. *)
Theorem field_scores_order_irrelevant
    (DeepDiff : value -> value -> bool -> DiffResult)
    (expected expected' extracted extracted' : list (string * value)) :
  NoDup (keys expected) -> NoDup (keys extracted) ->
  Permutation expected expected' -> Permutation extracted extracted' ->
  (forall key,
      lookup key (calculate_field_level_scores DeepDiff
                    (VDict expected) (VDict extracted))
      = lookup key (calculate_field_level_scores DeepDiff
                      (VDict expected') (VDict extracted')))
  /\ Permutation
       (calculate_field_level_scores DeepDiff
          (VDict expected) (VDict extracted))
       (calculate_field_level_scores DeepDiff
          (VDict expected') (VDict extracted')).
Proof.
  intros He Hx Pe Px.
  assert (Hscore : forall key,
             field_score DeepDiff expected extracted key
             = field_score DeepDiff expected' extracted' key).
  { intros key. unfold field_score, dict_get.
    rewrite (lookup_Permutation expected expected' key He Pe).
    rewrite (lookup_Permutation extracted extracted' key Hx Px).
    reflexivity. }
  assert (Hkeys : forall key,
             In key (keys expected) \/ In key (keys extracted)
             <-> In key (keys expected') \/ In key (keys extracted')).
  { intros key. unfold keys.
    pose proof (Permutation_map fst Pe) as Pe'.
    pose proof (Permutation_map fst Px) as Px'.
    split; intros [ H | H ].
    - left. apply (Permutation_in _ Pe'). exact H.
    - right. apply (Permutation_in _ Px'). exact H.
    - left. apply (Permutation_in _ (Permutation_sym Pe')). exact H.
    - right. apply (Permutation_in _ (Permutation_sym Px')). exact H. }
  assert (Hunion : Permutation (key_union (keys expected) (keys extracted))
                     (key_union (keys expected') (keys extracted'))).
  { apply NoDup_Permutation; try apply NoDup_nodup.
    intros key. rewrite !key_union_In. apply Hkeys. }
  split.
  - intros key.
    destruct (in_dec string_dec key
                (key_union (keys expected) (keys extracted))) as [ Hin | Hout ].
    + apply key_union_In in Hin.
      rewrite calculate_field_level_scores_lookup by exact Hin.
      rewrite calculate_field_level_scores_lookup by (apply Hkeys; exact Hin).
      rewrite Hscore. reflexivity.
    + rewrite key_union_In in Hout.
      rewrite !calculate_field_level_scores_loop.
      rewrite !loop_lookup_other; [ reflexivity | | ].
      * rewrite key_union_In, <- Hkeys. exact Hout.
      * rewrite key_union_In. exact Hout.
  - rewrite !field_scores_items.
    rewrite (map_ext
               (fun key => (key, field_score DeepDiff expected extracted key))
               (fun key =>
                  (key, field_score DeepDiff expected' extracted' key)))
      by (intros key; rewrite Hscore; reflexivity).
    apply Permutation_map. exact Hunion.
Qed.

(** The two dicts of scenario B, each listed in the other order. *)
Lemma field_scores_order_irrelevant_witness :
  lookup "age"
    (calculate_field_level_scores Ref.DeepDiff
       (VDict [("name", VStr "Alice"); ("age", VInt 30)])
       (VDict [("name", VStr "Alice"); ("age", VInt 31)]))
  = lookup "age"
      (calculate_field_level_scores Ref.DeepDiff
         (VDict [("age", VInt 30); ("name", VStr "Alice")])
         (VDict [("age", VInt 31); ("name", VStr "Alice")])).
Proof.
  apply (proj1 (field_scores_order_irrelevant Ref.DeepDiff
                  [("name"%string, VStr "Alice"); ("age"%string, VInt 30)]
                  [("age"%string, VInt 30); ("name"%string, VStr "Alice")]
                  [("name"%string, VStr "Alice"); ("age"%string, VInt 31)]
                  [("age"%string, VInt 31); ("name"%string, VStr "Alice")]
                  ltac:(repeat constructor; simpl; intuition discriminate)
                  ltac:(repeat constructor; simpl; intuition discriminate)
                  (perm_swap _ _ _) (perm_swap _ _ _))).
Defined.

(** ** What the entry point returns and raises *)

Lemma json_dumps_raises (obj : value) (indent : option Z) (e : exn) :
  json_dumps obj indent = Raise e -> e = TypeError /\ serializable obj = false.
Proof.
  unfold json_dumps. destruct (serializable obj); [ discriminate | ].
  intros H. injection H as <-. split; reflexivity.
Qed.

Lemma json_dumps_returns (obj : value) (indent : option Z) (text : json_text) :
  json_dumps obj indent = Ok text -> text = Dumped obj indent.
Proof.
  unfold json_dumps. destruct (serializable obj); [ | discriminate ].
  intros H. injection H as <-. reflexivity.
Qed.

(** X10: whenever the metric returns, the third component is the answer it
    was given, and the second is the text of an observation whose first
    item is the returned score, serialised with an indent of 2. *)
Theorem metric_result_shape
    (loads : string -> decoded)
    (DeepDiff : value -> value -> bool -> DiffResult)
    (output output_true : value)
    (score : Q) (text : json_text) (echoed : value) :
  llm_structured_output_metric loads DeepDiff output output_true
  = Ok (score, text, echoed) ->
  echoed = output
  /\ exists rest,
       text = Dumped (VDict (("score", VFloat score) :: rest)) (Some 2).
Proof.
  unfold llm_structured_output_metric.
  destruct (parse_json_from_response loads output_true)
    as [ expected | [ msg | | | | ] ] eqn:He; try discriminate.
  2:{ elim (parse_never_JSONDecodeError loads output_true msg He). }
  destruct (parse_json_from_response loads output)
    as [ extracted | e ] eqn:Hx; cbn [bind]; [ | discriminate ].
  destruct (is_None extracted).
  - destruct (json_dumps _ (Some 2)) as [ t | e ] eqn:Hd;
      cbn [bind]; [ | discriminate ].
    intros H. injection H as <- <- <-.
    apply json_dumps_returns in Hd. subst t.
    split; [ reflexivity | eexists; reflexivity ].
  - destruct (float_truediv _ _) as [ overall | e ];
      cbn [bind]; [ | discriminate ].
    destruct (json_dumps _ (Some 2)) as [ t | e ] eqn:Hd;
      cbn [bind]; [ | discriminate ].
    intros H. injection H as <- <- <-.
    apply json_dumps_returns in Hd. subst t.
    split; [ reflexivity | eexists; reflexivity ].
Qed.

(** Scenario E. *)
Lemma metric_result_shape_witness :
  VStr Scenario.not_json = VStr Scenario.not_json
  /\ exists rest,
       Dumped (extraction_failure Scenario.x1_data) (Some 2)
       = Dumped (VDict (("score", VFloat 0) :: rest)) (Some 2).
Proof.
  apply (metric_result_shape Ref.loads Ref.DeepDiff
           (VStr Scenario.not_json) (VStr Scenario.x1)).
  vm_compute. reflexivity.
Defined.

(** X11: [JSONDecodeError] never leaves the metric, and [TypeError] leaves
    it only when parsing one of the two inputs raises it (an input that is
    neither a string nor a dict) or when the expected or the extracted
    data holds an object that json cannot serialise. *)
Theorem metric_exceptions
    (loads : string -> decoded)
    (DeepDiff : value -> value -> bool -> DiffResult)
    (output output_true : value) :
  (forall msg,
      llm_structured_output_metric loads DeepDiff output output_true
      <> Raise (JSONDecodeError msg))
  /\ (llm_structured_output_metric loads DeepDiff output output_true
      = Raise TypeError ->
      parse_json_from_response loads output_true = Raise TypeError
      \/ parse_json_from_response loads output = Raise TypeError
      \/ (exists expected,
             parse_json_from_response loads output_true = Ok expected
             /\ serializable expected = false)
      \/ (exists extracted,
             parse_json_from_response loads output = Ok extracted
             /\ serializable extracted = false)).
Proof.
  unfold llm_structured_output_metric.
  destruct (parse_json_from_response loads output_true)
    as [ expected | [ msg | | | | ] ] eqn:He.
  2:{ elim (parse_never_JSONDecodeError loads output_true msg He). }
  2:{ split; [ discriminate | ]. intros _. left. reflexivity. }
  2,3,4:(split; discriminate).
  destruct (parse_json_from_response loads output)
    as [ extracted | [ msg | | | | ] ] eqn:Hx; cbn [bind].
  2:{ elim (parse_never_JSONDecodeError loads output msg Hx). }
  2:{ split; [ discriminate | ]. intros _. right. left. reflexivity. }
  2,3,4:(split; discriminate).
  assert (Hcases : serializable expected = false
                   \/ serializable extracted = false
                   \/ (serializable expected = true
                       /\ serializable extracted = true)).
  { destruct (serializable expected), (serializable extracted); tauto. }
  destruct Hcases as [ Hs | [ Hs | [Hs Hs'] ] ].
  - split.
    + intros msg. destruct (is_None extracted).
      * destruct (json_dumps _ (Some 2)) as [ t | e ] eqn:Hd; cbn [bind];
          [ discriminate | ].
        apply json_dumps_raises in Hd. destruct Hd as [-> _]. discriminate.
      * destruct (float_truediv _ _) as [ overall | e ] eqn:Hdiv; cbn [bind].
        -- destruct (json_dumps _ (Some 2)) as [ t | e ] eqn:Hd; cbn [bind];
             [ discriminate | ].
           apply json_dumps_raises in Hd. destruct Hd as [-> _]. discriminate.
        -- unfold float_truediv in Hdiv.
           destruct (len _ =? 0); [ | discriminate ].
           injection Hdiv as <-. discriminate.
    + intros _. right. right. left. exists expected.
      split; [ reflexivity | exact Hs ].
  - split.
    + intros msg. destruct (is_None extracted).
      * destruct (json_dumps _ (Some 2)) as [ t | e ] eqn:Hd; cbn [bind];
          [ discriminate | ].
        apply json_dumps_raises in Hd. destruct Hd as [-> _]. discriminate.
      * destruct (float_truediv _ _) as [ overall | e ] eqn:Hdiv; cbn [bind].
        -- destruct (json_dumps _ (Some 2)) as [ t | e ] eqn:Hd; cbn [bind];
             [ discriminate | ].
           apply json_dumps_raises in Hd. destruct Hd as [-> _]. discriminate.
        -- unfold float_truediv in Hdiv.
           destruct (len _ =? 0); [ | discriminate ].
           injection Hdiv as <-. discriminate.
    + intros _. right. right. right. exists extracted.
      split; [ reflexivity | exact Hs ].
  - destruct (is_None extracted).
    + unfold json_dumps. cbn [serializable forallb snd]. rewrite Hs.
      cbn [andb bind]. split; discriminate.
    + destruct (float_truediv _ _) as [ overall | e ] eqn:Hdiv; cbn [bind].
      * unfold json_dumps. cbn [serializable forallb snd].
        rewrite Hs, Hs', serializable_score_values.
        cbn [andb bind]. split; discriminate.
      * unfold float_truediv in Hdiv.
        destruct (len _ =? 0); [ | discriminate ].
        injection Hdiv as <-. split; discriminate.
Qed.

(** A ground truth given as a parsed list. *)
Lemma metric_exceptions_witness :
  parse_json_from_response Ref.loads (VList [VInt 1]) = Raise TypeError
  \/ parse_json_from_response Ref.loads (VStr Scenario.x1) = Raise TypeError
  \/ (exists expected,
         parse_json_from_response Ref.loads (VList [VInt 1]) = Ok expected
         /\ serializable expected = false)
  \/ (exists extracted,
         parse_json_from_response Ref.loads (VStr Scenario.x1) = Ok extracted
         /\ serializable extracted = false).
Proof.
  apply (proj2 (metric_exceptions Ref.loads Ref.DeepDiff
                  (VStr Scenario.x1) (VList [VInt 1]))).
  reflexivity.
Defined.

(** X12: [ZeroDivisionError] leaves the metric exactly when both inputs
    yield an object, the answer's is not [None], and there is no top-level
    field: a side is not a dict, or both dicts are empty. *)
Theorem zero_division_iff
    (loads : string -> decoded)
    (DeepDiff : value -> value -> bool -> DiffResult)
    (output output_true : value) :
  llm_structured_output_metric loads DeepDiff output output_true
  = Raise ZeroDivisionError
  <-> exists expected extracted,
        parse_json_from_response loads output_true = Ok expected
        /\ parse_json_from_response loads output = Ok extracted
        /\ is_None extracted = false
        /\ (is_dict expected = false \/ is_dict extracted = false
            \/ (expected = VDict [] /\ extracted = VDict [])).
Proof.
  split.
  - unfold llm_structured_output_metric.
    destruct (parse_json_from_response loads output_true)
      as [ expected | e ] eqn:He.
    2:{ destruct e as [ msg | | | | ];
          first [ discriminate
                | elim (parse_never_JSONDecodeError loads output_true msg He)
                | elim (parse_never_ZeroDivisionError loads output_true He) ]. }
    destruct (parse_json_from_response loads output)
      as [ extracted | e ] eqn:Hx; cbn [bind].
    2:{ destruct e as [ msg | | | | ];
          first [ discriminate
                | elim (parse_never_ZeroDivisionError loads output Hx) ]. }
    destruct (is_None extracted) eqn:Hnone.
    + destruct (json_dumps _ (Some 2)) as [ t | e ] eqn:Hd; cbn [bind];
        [ discriminate | ].
      apply json_dumps_raises in Hd. destruct Hd as [-> _]. discriminate.
    + destruct (float_truediv _ _) as [ overall | e ] eqn:Hdiv; cbn [bind].
      * destruct (json_dumps _ (Some 2)) as [ t | e ] eqn:Hd; cbn [bind];
          [ discriminate | ].
        apply json_dumps_raises in Hd. destruct Hd as [-> _]. discriminate.
      * intros _. exists expected, extracted.
        split; [ reflexivity | ]. split; [ reflexivity | ].
        split; [ exact Hnone | ].
        apply (field_scores_nil DeepDiff).
        destruct (calculate_field_level_scores DeepDiff expected extracted)
          as [ | item scores ]; [ reflexivity | ].
        destruct (float_truediv_nonempty (item :: scores)) as [overall H];
          [ discriminate | ].
        rewrite H in Hdiv. discriminate Hdiv.
  - intros (expected & extracted & He & Hx & Hnone & Hfields).
    rewrite (metric_scoring loads DeepDiff output output_true
               expected extracted) by assumption.
    rewrite no_fields_no_scores by exact Hfields. reflexivity.
Qed.

(** An answer that is a bare number. *)
Lemma zero_division_iff_witness :
  llm_structured_output_metric Ref.loads Ref.DeepDiff
    (VStr "42") (VStr Scenario.x1)
  = Raise ZeroDivisionError.
Proof.
  apply (proj2 (zero_division_iff Ref.loads Ref.DeepDiff
                  (VStr "42") (VStr Scenario.x1))).
  exists Scenario.x1_data, (VInt 42).
  split; [ reflexivity | ]. split; [ reflexivity | ].
  split; [ reflexivity | ]. right. left. reflexivity.
Defined.

(** ** Extraction: errors and the null answer *)

(** X13: [parse_json_from_response] raises [TypeError] on every parsed
    JSON value that is neither a dict nor a string ([None], a boolean, a
    number, a list), and it never raises [TypeError] on a dict or on a
    string. *)
Theorem parse_type_error (loads : string -> decoded) :
  (parse_json_from_response loads VNone = Raise TypeError
   /\ (forall b, parse_json_from_response loads (VBool b) = Raise TypeError)
   /\ (forall n, parse_json_from_response loads (VInt n) = Raise TypeError)
   /\ (forall x, parse_json_from_response loads (VFloat x) = Raise TypeError)
   /\ (forall items,
          parse_json_from_response loads (VList items) = Raise TypeError))
  /\ (forall response,
        parse_json_from_response loads response = Raise TypeError ->
        is_dict response = false /\ forall s, response <> VStr s).
Proof.
  split; [ repeat split | ].
  intros response H.
  destruct response as [ | b | n | x | s | items | d | t ];
    try (split; [ reflexivity | discriminate ]).
  - apply parse_str_outcome in H. destruct H as [ H | H ]; discriminate H.
  - discriminate H.
Qed.

(** A number given as a parsed value. *)
Lemma parse_type_error_witness :
  parse_json_from_response Ref.loads (VInt 3) = Raise TypeError
  /\ is_dict (VInt 3) = false /\ forall s, VInt 3 <> VStr s.
Proof.
  split.
  - apply (proj1 (parse_type_error Ref.loads)).
  - apply (proj2 (parse_type_error Ref.loads) (VInt 3)). reflexivity.
Defined.

(** X14: an answer whose text is valid JSON for [null] is treated as an
    answer from which nothing could be extracted: the metric returns the
    score 0 and the extraction-failure observation. *)
Theorem null_answer_is_extraction_failure
    (loads : string -> decoded)
    (DeepDiff : value -> value -> bool -> DiffResult)
    (answer : string) (output_true expected : value) :
  loads answer = Decoded VNone ->
  parse_json_from_response loads output_true = Ok expected ->
  serializable expected = true ->
  parse_json_from_response loads (VStr answer) = Ok VNone
  /\ llm_structured_output_metric loads DeepDiff (VStr answer) output_true
     = Ok (0%Q, Dumped (extraction_failure expected) (Some 2), VStr answer).
Proof.
  intros Hnull He Hser.
  pose proof (parse_whole loads answer VNone Hnull) as Hx.
  split; [ exact Hx | ].
  rewrite (metric_extraction_failure loads DeepDiff (VStr answer)
             output_true expected) by assumption.
  unfold json_dumps, extraction_failure. cbn [serializable forallb snd].
  rewrite Hser. reflexivity.
Qed.

(** The answer [null] against a null ground truth. *)
Lemma null_answer_is_extraction_failure_witness :
  parse_json_from_response Ref.loads (VStr "null") = Ok VNone
  /\ llm_structured_output_metric Ref.loads Ref.DeepDiff
       (VStr "null") (VStr "null")
     = Ok (0%Q, Dumped (extraction_failure VNone) (Some 2), VStr "null").
Proof.
  apply (null_answer_is_extraction_failure Ref.loads Ref.DeepDiff
           "null"%string (VStr "null") VNone);
    vm_compute; reflexivity.
Defined.

(** ** The two patterns, together *)

Lemma has_char_append (c : ascii) (a b : string) :
  has_char c (a ++ b) = has_char c a || has_char c b.
Proof.
  induction a as [ | x a IH ]; cbn [append has_char].
  - reflexivity.
  - rewrite IH. apply orb_assoc.
Qed.

Lemma through_last_close_whole (body : string) :
  through_last_close (body ++ String close_brace EmptyString)
  = Some (body ++ String close_brace EmptyString)%string.
Proof.
  induction body as [ | c body IH ].
  - reflexivity.
  - cbn [append through_last_close]. rewrite IH. reflexivity.
Qed.

(** X15: the brace pattern finds nothing exactly when no closing brace
    follows an opening brace in the text, and on a text that starts with
    an opening brace and ends with a closing brace it finds the whole
    text. *)
Theorem search_braces_none_iff :
  (forall s,
      search_braces s = None
      <-> ~ exists pre body post,
            s = (pre ++ String open_brace
                          (body ++ String close_brace post))%string)
  /\ (forall body,
        search_braces
          (String open_brace (body ++ String close_brace EmptyString))
        = Some (String open_brace (body ++ String close_brace EmptyString))).
Proof.
  split.
  - intros s. split.
    + intros Hnone (pre & body & post & ->).
      exact (search_braces_complete pre body post Hnone).
    + intros Hno. destruct (search_braces s) as [ m | ] eqn:Hm;
        [ | reflexivity ].
      elim Hno.
      destruct (search_braces_sound s m Hm)
        as (pre & body & post & Hs & -> & _).
      exists pre, body, post. rewrite Hs. cbn [append].
      rewrite append_assoc. reflexivity.
  - intros body. unfold search_braces. cbn [from_open_brace].
    change (Ascii.eqb open_brace open_brace) with true. cbn iota.
    rewrite through_last_close_whole. reflexivity.
Qed.

(** A closing brace before the only opening brace. *)
Lemma search_braces_none_iff_witness :
  search_braces "} and {" = None.
Proof.
  apply (proj1 search_braces_none_iff "} and {"%string).
  intros (pre & body & post & H).
  assert (Hfound : search_braces "} and {" <> None).
  { rewrite H. apply search_braces_complete. }
  apply Hfound. reflexivity.
Defined.

(** X16: whenever the code-block pattern matches, the brace pattern
    matches too: the third attempt only decodes a payload after the text
    between the outermost braces was found and rejected. *)
Theorem code_block_implies_braces (s p : string) :
  search_code_block s = Some p -> exists m, search_braces s = Some m.
Proof.
  intros Hp.
  destruct (search_code_block_sound s p Hp)
    as (pre & tag & ws1 & body & ws2 & post & Hs & _ & -> & _).
  destruct (search_braces s) as [ m | ] eqn:Hm; [ exists m; reflexivity | ].
  exfalso.
  apply (search_braces_complete (pre ++ fence ++ tag ++ ws1) body
           (ws2 ++ fence ++ post)).
  rewrite <- Hm. f_equal. rewrite Hs.
  rewrite !append_assoc. cbn [append]. rewrite !append_assoc. reflexivity.
Qed.

(** The answer of scenario D. *)
Lemma code_block_implies_braces_witness :
  exists m, search_braces Scenario.fenced_x1 = Some m.
Proof.
  apply (code_block_implies_braces Scenario.fenced_x1 Scenario.x1).
  vm_compute. reflexivity.
Defined.

(** X17: on a text without an opening brace neither pattern matches, so
    the outcome is that of [json.loads] on the whole text, with [None]
    returned in place of a [JSONDecodeError]: an array or a number inside
    prose is never extracted. *)
Theorem parse_without_brace (loads : string -> decoded) (s : string) :
  has_char open_brace s = false ->
  search_braces s = None /\ search_code_block s = None
  /\ parse_json_from_response loads (VStr s)
     = match loads s with
       | Decoded v => Ok v
       | Undecodable _ => Ok VNone
       | TooLong => Raise ValueError
       | TooDeep => Raise RecursionError
       end.
Proof.
  intros Hno.
  assert (Hb : search_braces s = None).
  { destruct (search_braces s) as [ m | ] eqn:Hm; [ | reflexivity ].
    destruct (search_braces_sound s m Hm)
      as (pre & body & post & Hs & -> & _).
    rewrite Hs, !has_char_append in Hno. cbn [has_char] in Hno.
    change (Ascii.eqb open_brace open_brace) with true in Hno.
    rewrite orb_true_r in Hno. discriminate Hno. }
  assert (Hc : search_code_block s = None).
  { destruct (search_code_block s) as [ p | ] eqn:Hp; [ | reflexivity ].
    destruct (search_code_block_sound s p Hp)
      as (pre & tag & ws1 & body & ws2 & post & Hs & _ & -> & _).
    rewrite Hs, !has_char_append in Hno. cbn [has_char] in Hno.
    change (Ascii.eqb open_brace open_brace) with true in Hno.
    cbn [orb] in Hno. rewrite !orb_true_r in Hno. discriminate Hno. }
  split; [ exact Hb | split; [ exact Hc | ] ].
  destruct (loads s) as [ v | msg | | ] eqn:Hl.
  - apply parse_whole. exact Hl.
  - apply parse_nothing.
    + exists msg. exact Hl.
    + rewrite Hb. exact I.
    + rewrite Hc. exact I.
  - apply parse_whole_raises. left. split; [ exact Hl | reflexivity ].
  - apply parse_whole_raises. right. split; [ exact Hl | reflexivity ].
Qed.

(** An array after a sentence. *)
Lemma parse_without_brace_witness :
  parse_json_from_response Ref.loads (VStr "The items are [1, 2, 3]")
  = Ok VNone.
Proof.
  apply (proj2 (proj2 (parse_without_brace Ref.loads
                         "The items are [1, 2, 3]" eq_refl))).
Defined.

(** ** An object inside prose *)

(** X18: an object that stands between a prefix without an opening brace
    and a suffix without a closing brace is what the brace pattern finds;
    when [json.loads] rejects the whole text and decodes the object, the
    decoded object is returned. *)
Theorem parse_object_in_prose (loads : string -> decoded)
    (pre body post : string) (v : value) :
  let object := String open_brace (body ++ String close_brace EmptyString) in
  let text := (pre ++ object ++ post)%string in
  has_char open_brace pre = false ->
  has_char close_brace post = false ->
  undecodable loads text ->
  loads object = Decoded v ->
  search_braces text = Some object
  /\ parse_json_from_response loads (VStr text) = Ok v.
Proof.
  intros object text Hpre Hpost Hwhole Hobject.
  assert (Hfound : search_braces text = Some object).
  { subst text object. unfold search_braces. cbn [append].
    rewrite from_open_brace_skip by exact Hpre.
    rewrite append_assoc. cbn [append].
    rewrite through_last_close_stop by exact Hpost. reflexivity. }
  split; [ exact Hfound | ].
  apply (parse_braces loads text object v); assumption.
Qed.

(** The object of scenario E's ground truth after a sentence and before a
    full stop. *)
Lemma parse_object_in_prose_witness :
  search_braces ("Here it is: " ++ Scenario.x1 ++ ".") = Some Scenario.x1
  /\ parse_json_from_response Ref.loads
       (VStr ("Here it is: " ++ Scenario.x1 ++ "."))
     = Ok Scenario.x1_data.
Proof.
  apply (parse_object_in_prose Ref.loads "Here it is: "
           (Scenario.quoted "x" ++ ":1") "." Scenario.x1_data).
  - reflexivity.
  - reflexivity.
  - exists "Expecting value"%string. vm_compute. reflexivity.
  - vm_compute. reflexivity.
Defined.
